(** * KloudiousAssignment: the authentication core

    A shallow embedding of [src/utils/validation.ts], [src/services/storage.ts]
    and the three operations of [src/contexts/AuthContext.tsx], followed by
    the properties of the specification that concern them.

    JavaScript strings are sequences of UTF-16 code units; they are modelled
    as lists of code units, so that [length], [indexOf], [trim] and [===]
    mean what they mean in the source. *)

From Stdlib Require Import String Ascii List NArith ZArith Bool Lia.
Import ListNotations.

(* ================================================================== *)
(** ** JavaScript strings *)

Module JS.

Definition jsstring := list N.

(** A literal of the source, read as code units. *)
Definition str (s : string) : jsstring :=
  map N_of_ascii (list_ascii_of_string s).

(** [a === b] on strings: same code units in the same order. *)
Fixpoint streq (a b : jsstring) : bool :=
  match a, b with
  | [], [] => true
  | x :: a', y :: b' => N.eqb x y && streq a' b'
  | _, _ => false
  end.

(** [s.length] *)
Definition strlen (s : jsstring) : Z := Z.of_nat (List.length s).

(** [s.indexOf(c)] for a one-unit search string: the position of the first
    occurrence, or -1. *)
Fixpoint indexOf_from (c : N) (s : jsstring) (i : Z) : Z :=
  match s with
  | [] => (-1)%Z
  | x :: r => if N.eqb x c then i else indexOf_from c r (i + 1)%Z
  end.

Definition indexOf (c : N) (s : jsstring) : Z := indexOf_from c s 0.

(** WhiteSpace and LineTerminator code units of ECMAScript, the ones
    [String.prototype.trim] strips. *)
Definition isWhiteSpace (c : N) : bool :=
  existsb (N.eqb c)
    [ 9; 10; 11; 12; 13; 32; 160; 5760;
      8192; 8193; 8194; 8195; 8196; 8197; 8198; 8199; 8200; 8201; 8202;
      8232; 8233; 8239; 8287; 12288; 65279 ]%N.

Fixpoint trimStart (s : jsstring) : jsstring :=
  match s with
  | [] => []
  | c :: r => if isWhiteSpace c then trimStart r else s
  end.

Definition trimEnd (s : jsstring) : jsstring := rev (trimStart (rev s)).

(** [s.trim()] *)
Definition trim (s : jsstring) : jsstring := trimEnd (trimStart s).

(** [!s] for a string: only the empty string is falsy. *)
Definition falsy (s : jsstring) : bool :=
  match s with [] => true | _ => false end.

Definition AT : N := 64.

End JS.

Import JS.

(* ================================================================== *)
(** ** src/utils/validation.ts *)

Module Validation.

Definition validateEmail (email : jsstring) : bool :=
  if falsy email then false
  else
    let atIndex := indexOf AT email in
    if (atIndex =? -1)%Z then false
    else if (atIndex =? 0)%Z then false
    else if (atIndex =? strlen email - 1)%Z then false
    else true.

Definition validatePassword (password : jsstring) : bool :=
  if falsy password then false
  else (strlen password >=? 6)%Z.

Definition validateRequired (value : jsstring) : bool :=
  if falsy value then false
  else (strlen (trim value) >? 0)%Z.

End Validation.

Import Validation.

(* ================================================================== *)
(** ** Exceptions, promises and state

    Every operation of the source is an [async] function that is awaited to
    completion before the next one starts.  It is modelled as a function from
    the state it runs in to its outcome (resolve or reject) and the state it
    leaves; a rejection keeps the state changes made before it. *)

Module Effects.

(** [new Error(message)] *)
Inductive exn : Type := Error (message : string).

Inductive outcome (A : Type) : Type :=
| Return (a : A)
| Throw (e : exn).

Arguments Return {A} a.
Arguments Throw {A} e.

Definition M (St A : Type) : Type := St -> outcome A * St.

Section Combinators.
Variable St : Type.

Definition ret {A} (a : A) : M St A := fun s => (Return a, s).

Definition throw {A} (e : exn) : M St A := fun s => (Throw e, s).

Definition bind {A B} (m : M St A) (k : A -> M St B) : M St B :=
  fun s =>
    match m s with
    | (Return a, s') => k a s'
    | (Throw e, s') => (Throw e, s')
    end.

(** [try { m } catch (e) { h e }] *)
Definition try_catch {A} (m : M St A) (h : exn -> M St A) : M St A :=
  fun s =>
    match m s with
    | (Return a, s') => (Return a, s')
    | (Throw e, s') => h e s'
    end.

(** [try { m } finally { f }] *)
Definition try_finally {A} (m : M St A) (f : M St unit) : M St A :=
  fun s =>
    match m s with
    | (r, s') =>
        match f s' with
        | (Return _, s'') => (r, s'')
        | (Throw e, s'') => (Throw e, s'')
        end
    end.

(** Reading a component of the state, and changing the state. *)
Definition reads {A} (proj : St -> A) : M St A := fun s => (Return (proj s), s).

Definition modify (f : St -> St) : M St unit := fun s => (Return tt, f s).
End Combinators.

Arguments ret {St A} a.
Arguments throw {St A} e.
Arguments bind {St A B} m k.
Arguments try_catch {St A} m h.
Arguments try_finally {St A} m f.
Arguments reads {St A} proj.
Arguments modify {St} f.

Declare Scope js_scope.
Delimit Scope js_scope with js.

Notation "x <- m ;; k" := (bind m (fun x => k))
  (at level 61, m at next level, right associativity) : js_scope.
Notation "m ;; k" := (bind m (fun _ => k))
  (at level 61, right associativity) : js_scope.

End Effects.

Import Effects.

(* ================================================================== *)
(** ** src/types/auth.ts *)

Record User : Type := mkUser {
  name : jsstring;
  email : jsstring;
  password : jsstring
}.

(* ================================================================== *)
(** ** The platform: AsyncStorage and JSON

    Neither belongs to the repository.  AsyncStorage is a key-value store
    whose three calls may reject; [JSON.stringify] and [JSON.parse] turn a
    value into text and back, [JSON.parse] throwing on text it cannot read.
    The text written and the state of the store are left abstract; the parsed
    value is taken at the type the source declares for it. *)

Class JSON (text : Type) : Type := {
  stringify_user : User -> text;
  stringify_users : list User -> text;
  parse_user : text -> outcome (option User);
  parse_users : text -> outcome (list User)
}.

Class AsyncStorage (text store : Type) : Type := {
  getItem : jsstring -> M store (option text);
  setItem : jsstring -> text -> M store unit;
  removeItem : jsstring -> M store unit
}.

(* ================================================================== *)
(** ** src/services/storage.ts *)

Module Storage.
Section Storage.
Context {text store : Type} `{JSON text} `{AsyncStorage text store}.
Local Open Scope js_scope.

Definition USER_KEY : jsstring := str "@auth_user".
Definition USERS_KEY : jsstring := str "@auth_users".

(** The value of [JSON.parse(jsonValue)] as a computation. *)
Definition parsed {A} (r : outcome A) : M store A := fun s => (r, s).

Definition saveUser (user : User) : M store unit :=
  try_catch
    (let jsonValue := stringify_user user in
     setItem USER_KEY jsonValue)
    (fun error => throw error).

Definition getUser : M store (option User) :=
  try_catch
    (jsonValue <- getItem USER_KEY ;;
     match jsonValue with
     | Some t => parsed (parse_user t)
     | None => ret None
     end)
    (fun _ => ret None).

Definition removeUser : M store unit :=
  try_catch (removeItem USER_KEY) (fun error => throw error).

Definition saveUsers (users : list User) : M store unit :=
  try_catch
    (let jsonValue := stringify_users users in
     setItem USERS_KEY jsonValue)
    (fun error => throw error).

Definition getUsers : M store (list User) :=
  try_catch
    (jsonValue <- getItem USERS_KEY ;;
     match jsonValue with
     | Some t => parsed (parse_users t)
     | None => ret []
     end)
    (fun _ => ret []).
End Storage.
End Storage.

Import Storage.

(* ================================================================== *)
(** ** src/contexts/AuthContext.tsx

    The provider holds three pieces of React state.  The functions of its
    context value are built anew by every render and read the [users] of
    the render that built them; the setters act on the state of the
    provider.  [signup] and [login] below are the functions of the render of
    the state they run in, that is, a call through the current context
    value; the functions of an arbitrary render are in [Closure]. *)

Module Auth.

Record AuthState : Type := mkAuthState {
  user : option User;
  users : list User;
  isLoading : bool
}.

(** [useState(null)], [useState([])], [useState(true)] *)
Definition initialState : AuthState :=
  {| user := None; users := []; isLoading := true |}.

Record World (store : Type) : Type := mkWorld {
  auth : AuthState;
  disk : store
}.

Arguments mkWorld {store} auth disk.
Arguments auth {store} w.
Arguments disk {store} w.

(** The callback of [users.find(u => u.email === email)]. *)
Definition sameEmail (e : jsstring) (u : User) : bool := streq (email u) e.

(** [foundUser.password !== password] *)
Definition passwordDiffers (u : User) (p : jsstring) : bool :=
  negb (streq (password u) p).

Section Provider.
Context {text store : Type} `{JSON text} `{AsyncStorage text store}.
Local Open Scope js_scope.
Local Open Scope string_scope.

Definition setUser (u : option User) : M (World store) unit :=
  modify (fun w =>
    mkWorld {| user := u; users := users (auth w);
               isLoading := isLoading (auth w) |} (disk w)).

Definition setUsers (us : list User) : M (World store) unit :=
  modify (fun w =>
    mkWorld {| user := user (auth w); users := us;
               isLoading := isLoading (auth w) |} (disk w)).

Definition setIsLoading (b : bool) : M (World store) unit :=
  modify (fun w =>
    mkWorld {| user := user (auth w); users := users (auth w);
               isLoading := b |} (disk w)).

(** A call into the storage service: it sees and changes the store only. *)
Definition await {A} (m : M store A) : M (World store) A :=
  fun w =>
    match m (disk w) with
    | (r, s') => (r, mkWorld (auth w) s')
    end.

Definition loadStoredAuth : M (World store) unit :=
  try_finally
    (try_catch
       (setIsLoading true ;;
        storedUser <- await getUser ;;
        storedUsers <- await getUsers ;;
        match storedUser with
        | Some u => setUser (Some u)
        | None => ret tt
        end ;;
        setUsers storedUsers)
       (fun _ => ret tt))
    (setIsLoading false).

Definition signup (name email password : jsstring) : M (World store) unit :=
  if negb (validateRequired name) then throw (Error "Name is required")
  else if negb (validateRequired email) then throw (Error "Email is required")
  else if negb (validateRequired password)
    then throw (Error "Password is required")
  else if negb (validateEmail email) then throw (Error "Invalid email format")
  else if negb (validatePassword password)
    then throw (Error "Password must be at least 6 characters")
  else
    us <- reads (fun w => users (auth w)) ;;
    match find (sameEmail email) us with
    | Some _ => throw (Error "Email already registered")
    | None =>
        let newUser := mkUser name email password in
        let updatedUsers := (us ++ [newUser])%list in
        setUsers updatedUsers ;;
        try_catch (await (saveUsers updatedUsers))
          (fun _ => throw (Error "Failed to save user data"))
    end.

Definition login (email password : jsstring) : M (World store) unit :=
  if negb (validateRequired email) then throw (Error "Email is required")
  else if negb (validateRequired password)
    then throw (Error "Password is required")
  else if negb (validateEmail email) then throw (Error "Invalid email format")
  else
    us <- reads (fun w => users (auth w)) ;;
    match find (sameEmail email) us with
    | None => throw (Error "Invalid credentials")
    | Some foundUser =>
        if passwordDiffers foundUser password
        then throw (Error "Invalid credentials")
        else
          setUser (Some foundUser) ;;
          try_catch (await (saveUser foundUser))
            (fun _ => throw (Error "Failed to save session"))
    end.

Definition logout : M (World store) unit :=
  setUser None ;;
  try_catch (await removeUser)
    (fun _ => throw (Error "Failed to clear session")).

(** *** Callers

    A caller that awaits one operation, catches what it throws, and makes
    the next call through the context value of the render that followed (as
    the hook tests do through [result.current]); each call then reads the
    state the last one left.  Callers that keep an older context value are
    [Closure.runVia]. *)

Inductive Op : Type :=
| Signup (name email password : jsstring)
| Login (email password : jsstring)
| Logout.

Definition exec (o : Op) : M (World store) unit :=
  match o with
  | Signup n e p => signup n e p
  | Login e p => login e p
  | Logout => logout
  end.

Fixpoint run (ops : list Op) (w : World store) : World store :=
  match ops with
  | [] => w
  | o :: rest => run rest (snd (exec o w))
  end.
End Provider.

End Auth.

Import Auth.

(* ================================================================== *)
(** ** The context value of a render

    [value = { user, login, signup, logout, isLoading }] is built by each
    render of the provider (lines 188-194); its [signup] and [login] read
    the [users] of that render (lines 113, 122, 153), whatever the state of
    the provider has become by the time they are called.  A render is given
    by the state it rendered. *)

Module Closure.
Section Closure.
Context {text store : Type} `{JSON text} `{AsyncStorage text store}.
Local Open Scope js_scope.
Local Open Scope string_scope.

Definition signup (render : AuthState) (name email password : jsstring)
  : M (World store) unit :=
  if negb (validateRequired name) then throw (Error "Name is required")
  else if negb (validateRequired email) then throw (Error "Email is required")
  else if negb (validateRequired password)
    then throw (Error "Password is required")
  else if negb (validateEmail email) then throw (Error "Invalid email format")
  else if negb (validatePassword password)
    then throw (Error "Password must be at least 6 characters")
  else
    let users := users render in
    match find (sameEmail email) users with
    | Some _ => throw (Error "Email already registered")
    | None =>
        let newUser := mkUser name email password in
        let updatedUsers := (users ++ [newUser])%list in
        setUsers updatedUsers ;;
        try_catch (await (saveUsers updatedUsers))
          (fun _ => throw (Error "Failed to save user data"))
    end.

Definition login (render : AuthState) (email password : jsstring)
  : M (World store) unit :=
  if negb (validateRequired email) then throw (Error "Email is required")
  else if negb (validateRequired password)
    then throw (Error "Password is required")
  else if negb (validateEmail email) then throw (Error "Invalid email format")
  else
    let users := users render in
    match find (sameEmail email) users with
    | None => throw (Error "Invalid credentials")
    | Some foundUser =>
        if passwordDiffers foundUser password
        then throw (Error "Invalid credentials")
        else
          setUser (Some foundUser) ;;
          try_catch (await (saveUser foundUser))
            (fun _ => throw (Error "Failed to save session"))
    end.

(** [logout] reads nothing of its render. *)
Definition logout (render : AuthState) : M (World store) unit :=
  Auth.logout.

Definition exec (render : AuthState) (o : Op) : M (World store) unit :=
  match o with
  | Signup n e p => signup render n e p
  | Login e p => login render e p
  | Logout => logout render
  end.

(** A caller that awaits its calls one after the other, each through a
    context value it holds: [(age, o)] makes the call [o] through the
    context value of the render [age] renders before the latest ([0] is the
    latest; an age beyond the first render means the latest).  [past] lists
    the renders before the latest, most recent first. *)
Fixpoint runVia (calls : list (nat * Op)) (past : list AuthState)
  (w : World store) : World store :=
  match calls with
  | [] => w
  | (age, o) :: rest =>
      let render := nth age (auth w :: past) (auth w) in
      runVia rest (auth w :: past) (snd (exec render o w))
  end.

(** Every call through the context value of the latest render. *)
Definition latest (ops : list Op) : list (nat * Op) :=
  map (fun o => (0, o)) ops.

(** Awaiting a batch of signups, each through the context value of the
    latest render, stopping at the first that throws. *)
Fixpoint signupAll (reqs : list User) : M (World store) unit :=
  match reqs with
  | [] => ret tt
  | r :: rest =>
      render <- reads (fun w => auth w) ;;
      signup render (name r) (email r) (password r) ;;
      signupAll rest
  end.
End Closure.
End Closure.

(* ================================================================== *)
(** ** The vocabulary of the specification *)

Module Spec.
Local Open Scope string_scope.

(** The error kinds, by the message the source throws for each. *)
Definition NameRequired : exn := Error "Name is required".
Definition EmailRequired : exn := Error "Email is required".
Definition PasswordRequired : exn := Error "Password is required".
Definition InvalidEmailFormat : exn := Error "Invalid email format".
Definition PasswordTooShort : exn :=
  Error "Password must be at least 6 characters".
Definition EmailAlreadyRegistered : exn := Error "Email already registered".
Definition InvalidCredentials : exn := Error "Invalid credentials".

Definition validationErrors : list exn :=
  [ NameRequired; EmailRequired; PasswordRequired; InvalidEmailFormat;
    PasswordTooShort; EmailAlreadyRegistered ].

(** The three messages under which a rejected storage write surfaces. *)
Definition PersistenceFailure (e : exn) : Prop :=
  In e [ Error "Failed to save user data"; Error "Failed to save session";
         Error "Failed to clear session" ].

(** The emails of a registry, in order. *)
Definition emails (registry : list User) : list jsstring := map email registry.

(** "Existing user with exact-match email in registry". *)
Definition registered (e : jsstring) (registry : list User) : bool :=
  existsb (fun u => streq (email u) e) registry.

(** The six checks of signup in the order the specification lists them, each
    with the error it stands for; a check is [true] when it passes. *)
Definition signupChecks (n e p : jsstring) (registry : list User)
  : list (bool * exn) :=
  [ (validateRequired n, NameRequired);
    (validateRequired e, EmailRequired);
    (validateRequired p, PasswordRequired);
    (validateEmail e, InvalidEmailFormat);
    (validatePassword p, PasswordTooShort);
    (negb (registered e registry), EmailAlreadyRegistered) ].

(** The checks of login that come before the credential lookup. *)
Definition loginChecks (e p : jsstring) : list (bool * exn) :=
  [ (validateRequired e, EmailRequired);
    (validateRequired p, PasswordRequired);
    (validateEmail e, InvalidEmailFormat) ].

(** First failure wins. *)
Fixpoint firstFailure (checks : list (bool * exn)) : option exn :=
  match checks with
  | [] => None
  | (passes, err) :: rest => if passes then firstFailure rest else Some err
  end.

(** The inputs the round trip is stated for. *)
Definition validInputs (n e p : jsstring) : Prop :=
  validateRequired n = true /\ validateRequired e = true /\
  validateRequired p = true /\ validateEmail e = true /\
  validatePassword p = true.

(** A string without ['@'], and the first and last unit of a string. *)
Definition noAt (s : jsstring) : Prop := ~ In AT s.
Definition startsWithAt (s : jsstring) : Prop := exists r, s = AT :: r.
Definition endsWithAt (s : jsstring) : Prop := exists r, s = (r ++ [AT])%list.

End Spec.

Import Spec.

(* ================================================================== *)
(** ** A platform to run the model on

    An ideal codec, whose text for a value is the value, and a store kept in
    a list, which serves reads and writes or rejects them according to two
    switches. *)

Module Demo.
Local Open Scope string_scope.

Inductive doc : Type :=
| UserDoc (u : User)
| UsersDoc (us : list User)
| Corrupt.

#[export] Instance docJSON : JSON doc := {
  stringify_user := UserDoc;
  stringify_users := UsersDoc;
  parse_user t :=
    match t with
    | UserDoc u => Return (Some u)
    | _ => Throw (Error "SyntaxError")
    end;
  parse_users t :=
    match t with
    | UsersDoc us => Return us
    | _ => Throw (Error "SyntaxError")
    end
}.

Record Disk : Type := mkDisk {
  items : list (jsstring * doc);
  readable : bool;
  writable : bool
}.

Fixpoint lookup (k : jsstring) (l : list (jsstring * doc)) : option doc :=
  match l with
  | [] => None
  | (k', v) :: r => if streq k' k then Some v else lookup k r
  end.

Definition without (k : jsstring) (l : list (jsstring * doc))
  : list (jsstring * doc) :=
  filter (fun kv => negb (streq (fst kv) k)) l.

#[export] Instance diskStorage : AsyncStorage doc Disk := {
  getItem k := fun d =>
    if readable d then (Return (lookup k (items d)), d)
    else (Throw (Error "read rejected"), d);
  setItem k v := fun d =>
    if writable d
    then (Return tt, mkDisk ((k, v) :: without k (items d)) (readable d) true)
    else (Throw (Error "write rejected"), d);
  removeItem k := fun d =>
    if writable d
    then (Return tt, mkDisk (without k (items d)) (readable d) true)
    else (Throw (Error "write rejected"), d)
}.

Definition emptyDisk : Disk := mkDisk [] true true.
Definition readOnlyDisk : Disk := mkDisk [] true false.
Definition deadDisk : Disk := mkDisk [] false false.
Definition savedDisk : Disk :=
  mkDisk [ (USER_KEY, UserDoc (mkUser (str "Ann") (str "ann@x.com")
                                 (str "secret1")));
           (USERS_KEY, UsersDoc [ mkUser (str "Ann") (str "ann@x.com")
                                    (str "secret1") ]) ] true true.
Definition corruptDisk : Disk :=
  mkDisk [ (USER_KEY, Corrupt); (USERS_KEY, Corrupt) ] true true.

Definition ann : User := mkUser (str "Ann") (str "ann@x.com") (str "secret1").
Definition bob : User := mkUser (str "Bob") (str "bob@x.com") (str "hunter22").

Definition fresh (d : Disk) : World Disk := mkWorld initialState d.
Definition ready (registry : list User) (d : Disk) : World Disk :=
  mkWorld {| user := None; users := registry; isLoading := false |} d.

End Demo.

(* ================================================================== *)
(** ** The two commits

    What [signup] and [login] do once every check has passed, cut out of
    their bodies so that the facts about it are stated once. *)

Module Commit.

(** [try { await write } catch (error) { throw new Error(message) }], seen
    from the outcome of the write. *)
Definition surfaced (r : outcome unit) (message : string) : outcome unit :=
  match r with
  | Return _ => Return tt
  | Throw _ => Throw (Error message)
  end.

(** An operation that got past its checks: it returns, or it reports the
    rejected write. *)
Definition returnsOrPersistenceFailure (r : outcome unit) : Prop :=
  r = Return tt \/ exists err, r = Throw err /\ PersistenceFailure err.

Section Commit.
Context {text store : Type} `{JSON text} `{AsyncStorage text store}.
Local Open Scope js_scope.
Local Open Scope string_scope.

(** Lines 118-131 of [signup]. *)
Definition register (newUser : User) : M (World store) unit :=
  us <- reads (fun w => users (auth w)) ;;
  let updatedUsers := (us ++ [newUser])%list in
  setUsers updatedUsers ;;
  try_catch (await (saveUsers updatedUsers))
    (fun _ => throw (Error "Failed to save user data")).

(** Lines 160-169 of [login]. *)
Definition openSession (foundUser : User) : M (World store) unit :=
  setUser (Some foundUser) ;;
  try_catch (await (saveUser foundUser))
    (fun _ => throw (Error "Failed to save session")).

(** The storage accepts the write of [v] under [k] in state [s]. *)
Definition accepts (k : jsstring) (v : text) (s : store) : Prop :=
  fst (setItem k v s) = Return tt.

(** The storage rejects it. *)
Definition rejects (k : jsstring) (v : text) (s : store) : Prop :=
  exists err, fst (setItem k v s) = Throw err.

(** What the two reads of start-up can come to: a value, or nothing (the
    key is absent, the read is rejected or the text does not parse). *)
Definition sessionRead (s : store) : option User :=
  match getItem USER_KEY s with
  | (Return (Some t), _) =>
      match parse_user t with
      | Return (Some u) => Some u
      | _ => None
      end
  | _ => None
  end.

Definition registryRead (s : store) : option (list User) :=
  match getItem USERS_KEY s with
  | (Return (Some t), _) =>
      match parse_users t with
      | Return us => Some us
      | Throw _ => None
      end
  | _ => None
  end.
End Commit.
End Commit.

Import Commit.

Ltac unfold_js :=
  unfold register, openSession, logout, saveUsers, saveUser, removeUser,
    getUser, getUsers, parsed, await, setUsers, setUser, setIsLoading,
    modify, reads, bind, try_catch, try_finally, ret, throw;
  cbn [auth disk user users isLoading fst snd].

(* ================================================================== *)
(** ** The contract of the platform

    What the repository relies on when it reads back what it wrote: parsing
    the text of a value gives the value, a read returns the text last
    written under its key and nothing after a removal, a write or removal
    under one key leaves the other keys alone, and a read leaves the store
    as it is. *)

Class LawfulJSON {text : Type} `{JSON text} : Prop := {
  parse_stringify_user :
    forall u, parse_user (stringify_user u) = Return (Some u);
  parse_stringify_users :
    forall us, parse_users (stringify_users us) = Return us
}.

Class LawfulStorage {text store : Type} `{AsyncStorage text store} : Prop := {
  get_keeps : forall k s, snd (getItem k s) = s;
  get_set : forall k v s s',
    setItem k v s = (Return tt, s') -> fst (getItem k s') = Return (Some v);
  get_set_other : forall k k' v s s',
    k <> k' -> setItem k v s = (Return tt, s') ->
    fst (getItem k' s') = fst (getItem k' s);
  get_remove : forall k s s',
    removeItem k s = (Return tt, s') -> fst (getItem k s') = Return None;
  get_remove_other : forall k k' s s',
    k <> k' -> removeItem k s = (Return tt, s') ->
    fst (getItem k' s') = fst (getItem k' s)
}.

(* ================================================================== *)
(** ** src/types/auth.ts: FormErrors

    An object with four optional keys; a key is present once it has been
    assigned. *)

Module Form.

Record FormErrors : Type := mkFormErrors {
  name : option string;
  email : option string;
  password : option string;
  general : option string
}.

(** [{}] *)
Definition empty : FormErrors :=
  {| name := None; email := None; password := None; general := None |}.

Definition present (field : option string) (key : string) : list string :=
  match field with Some _ => [key] | None => [] end.

(** [Object.keys(errors)] *)
Definition keys (e : FormErrors) : list string :=
  (present (name e) "name" ++ present (email e) "email" ++
   present (password e) "password" ++ present (general e) "general")%list.

(** The messages an object of errors holds. *)
Definition messages (e : FormErrors) : list string :=
  (match name e with Some m => [m] | None => [] end ++
   match email e with Some m => [m] | None => [] end ++
   match password e with Some m => [m] | None => [] end ++
   match general e with Some m => [m] | None => [] end)%list.

End Form.

(** [RootStackParamList] *)
Module Nav.

Inductive Route : Type := Login | Signup | Home.

End Nav.

(* ================================================================== *)
(** ** src/screens/LoginScreen.tsx *)

Module LoginScreen.

Record State : Type := mkState {
  email : jsstring;
  password : jsstring;
  showPassword : bool;
  errors : Form.FormErrors
}.

Definition initial : State :=
  {| email := []; password := []; showPassword := false;
     errors := Form.empty |}.

Definition setErrors (e : Form.FormErrors) (sc : State) : State :=
  {| email := email sc; password := password sc;
     showPassword := showPassword sc; errors := e |}.

Definition setShowPassword (b : bool) (sc : State) : State :=
  {| email := email sc; password := password sc;
     showPassword := b; errors := errors sc |}.

(** The object [newErrors] at the end of [validateForm]. *)
Definition newErrors (sc : State) : Form.FormErrors :=
  {| Form.name := None;
     Form.email :=
       if negb (validateRequired (email sc)) then Some "Email is required"
       else if negb (validateEmail (email sc))
       then Some "Invalid email format"
       else None;
     Form.password :=
       if negb (validateRequired (password sc))
       then Some "Password is required"
       else None;
     Form.general := None |}%string.

Definition validateForm (sc : State) : bool * State :=
  (Nat.eqb (List.length (Form.keys (newErrors sc))) 0,
   setErrors (newErrors sc) sc).

Definition togglePasswordVisibility (sc : State) : State :=
  setShowPassword (negb (showPassword sc)) sc.

Section Handlers.
Context {text store : Type} `{JSON text} `{AsyncStorage text store}.

(** Every value the provider throws is an [Error], so
    [error instanceof Error] holds and the message shown is its own. *)
Definition handleLogin (sc : State) (w : World store)
  : State * World store :=
  let (valid, sc1) := validateForm sc in
  if negb valid then (sc1, w)
  else
    match login (email sc) (password sc) w with
    | (Return _, w') => (sc1, w')
    | (Throw (Error errorMessage), w') =>
        (setErrors {| Form.name := None; Form.email := None;
                      Form.password := None;
                      Form.general := Some errorMessage |} sc1, w')
    end.
End Handlers.

End LoginScreen.

(* ================================================================== *)
(** ** src/screens/SignupScreen.tsx *)

Module SignupScreen.

Record State : Type := mkState {
  name : jsstring;
  email : jsstring;
  password : jsstring;
  showPassword : bool;
  errors : Form.FormErrors
}.

Definition initial : State :=
  {| name := []; email := []; password := []; showPassword := false;
     errors := Form.empty |}.

Definition setErrors (e : Form.FormErrors) (sc : State) : State :=
  {| name := name sc; email := email sc; password := password sc;
     showPassword := showPassword sc; errors := e |}.

(** The object [newErrors] at the end of [validateForm]. *)
Definition newErrors (sc : State) : Form.FormErrors :=
  {| Form.name :=
       if negb (validateRequired (name sc)) then Some "Name is required"
       else None;
     Form.email :=
       if negb (validateRequired (email sc)) then Some "Email is required"
       else if negb (validateEmail (email sc))
       then Some "Invalid email format"
       else None;
     Form.password :=
       if negb (validateRequired (password sc))
       then Some "Password is required"
       else if negb (validatePassword (password sc))
       then Some "Password must be at least 6 characters"
       else None;
     Form.general := None |}%string.

Definition validateForm (sc : State) : bool * State :=
  (Nat.eqb (List.length (Form.keys (newErrors sc))) 0,
   setErrors (newErrors sc) sc).

Section Handlers.
Context {text store : Type} `{JSON text} `{AsyncStorage text store}.

(** The result lists the calls of [navigation.navigate]. *)
Definition handleSignup (sc : State) (w : World store)
  : State * World store * list Nav.Route :=
  let (valid, sc1) := validateForm sc in
  if negb valid then (sc1, w, [])
  else
    match signup (name sc) (email sc) (password sc) w with
    | (Return _, w') => (sc1, w', [Nav.Login])
    | (Throw (Error errorMessage), w') =>
        (setErrors {| Form.name := None; Form.email := None;
                      Form.password := None;
                      Form.general := Some errorMessage |} sc1, w', [])
    end.
End Handlers.

End SignupScreen.

(* ================================================================== *)
(** ** src/screens/HomeScreen.tsx and src/navigation/AppNavigator.tsx *)

Module HomeScreen.
Section Handlers.
Context {text store : Type} `{JSON text} `{AsyncStorage text store}.

Definition handleLogout : M (World store) unit :=
  try_catch logout (fun _ => ret tt).
End Handlers.
End HomeScreen.

Module AppNavigator.

Inductive View : Type :=
| LoadingIndicator
| Stack (screens : list Nav.Route).

Definition AppNavigator (st : AuthState) : View :=
  if isLoading st then LoadingIndicator
  else
    match user st with
    | Some _ => Stack [Nav.Home]
    | None => Stack [Nav.Login; Nav.Signup]
    end.

End AppNavigator.

(* ================================================================== *)
(** ** Predicates on states *)

Module Invariants.

(** A user whose fields pass the five field checks of signup. *)
Definition validUser (u : User) : Prop :=
  validInputs (name u) (email u) (password u).

(** currentUser, when set, is an entry of the registry. *)
Definition sessionRegistered (st : AuthState) : Prop :=
  match user st with
  | Some u => In u (users st)
  | None => True
  end.

Section Synced.
Context {text store : Type} `{JSON text} `{AsyncStorage text store}.

(** The store holds what the memory holds: reading the session and the
    registry back gives currentUser and the registry. *)
Definition synced (w : World store) : Prop :=
  fst (getUser (disk w)) = Return (user (auth w)) /\
  fst (getUsers (disk w)) = Return (users (auth w)).

(** The application is started again on the store [w] left. *)
Definition restart (w : World store) : World store :=
  snd (loadStoredAuth (mkWorld initialState (disk w))).
End Synced.

End Invariants.

Import Invariants.

(* ================================================================== *)
(** ** A store that keeps the contract

    The list store again, without the switches: every read and write is
    served. *)

Module Reliable.

Definition Shelf : Type := list (jsstring * Demo.doc).

#[export] Instance shelfStorage : AsyncStorage Demo.doc Shelf := {
  getItem k := fun d => (Return (Demo.lookup k d), d);
  setItem k v := fun d => (Return tt, (k, v) :: Demo.without k d);
  removeItem k := fun d => (Return tt, Demo.without k d)
}.

Definition emptyShelf : Shelf := [].

Definition ready (registry : list User) : World Shelf :=
  mkWorld {| user := None; users := registry; isLoading := false |}
    emptyShelf.

End Reliable.

(* ================================================================== *)
(** * Properties *)

(** ** Strings and validators *)

Lemma streq_refl (a : jsstring) : streq a a = true.
Proof.
  induction a as [|x a IH]; simpl; [reflexivity|].
  now rewrite N.eqb_refl, IH.
Qed.

Lemma streq_eq (a b : jsstring) : streq a b = true <-> a = b.
Proof.
  split; [|intros ->; apply streq_refl].
  revert b; induction a as [|x a IH]; intros [|y b]; simpl; try discriminate;
    [reflexivity|].
  intros E. apply andb_true_iff in E as [E1 E2].
  apply N.eqb_eq in E1. apply IH in E2. now subst.
Qed.

Lemma streq_neq (a b : jsstring) : streq a b = false <-> a <> b.
Proof.
  rewrite <- streq_eq. destruct (streq a b); split; congruence.
Qed.

Lemma indexOf_from_absent (c : N) (s : jsstring) (i : Z) :
  ~ In c s -> indexOf_from c s i = (-1)%Z.
Proof.
  revert i; induction s as [|x s IH]; intros i Hn; simpl; [reflexivity|].
  destruct (N.eqb_spec x c) as [->|_].
  - exfalso. apply Hn. now left.
  - apply IH. intros Hin. apply Hn. now right.
Qed.

Lemma indexOf_from_first (c : N) (l r : jsstring) (i : Z) :
  ~ In c l ->
  indexOf_from c (l ++ c :: r) i = (i + Z.of_nat (List.length l))%Z.
Proof.
  revert i; induction l as [|x l IH]; intros i Hn; simpl.
  - rewrite N.eqb_refl. lia.
  - destruct (N.eqb_spec x c) as [->|_].
    + exfalso. apply Hn. now left.
    + rewrite IH by (intros Hin; apply Hn; now right). lia.
Qed.

Lemma validateEmail_noAt (s : jsstring) : noAt s -> validateEmail s = false.
Proof.
  intros Hn. unfold validateEmail, indexOf.
  destruct (falsy s); [reflexivity|].
  now rewrite indexOf_from_absent by exact Hn.
Qed.

Lemma validateEmail_startsWithAt (s : jsstring) :
  startsWithAt s -> validateEmail s = false.
Proof.
  intros [r ->]. reflexivity.
Qed.

Lemma validateEmail_onlyAt_last (r : jsstring) :
  noAt r -> validateEmail (r ++ [AT]) = false.
Proof.
  intros Hn. unfold validateEmail, indexOf, strlen.
  destruct (falsy (r ++ [AT])); [reflexivity|].
  rewrite indexOf_from_first by exact Hn. rewrite length_app. simpl List.length.
  destruct (_ =? -1)%Z; [reflexivity|].
  destruct (_ =? 0)%Z; [reflexivity|].
  replace (0 + Z.of_nat (List.length r))%Z
    with (Z.of_nat (List.length r + 1) - 1)%Z by lia.
  now rewrite Z.eqb_refl.
Qed.

(** X3.  [validateEmail] accepts exactly the strings of the shape
    [l ++ "@" ++ r] with [l] and [r] non-empty and no ['@'] in [l]: what
    follows the first ['@'] is not looked at, and may hold further ['@']. *)
Lemma validateEmail_shape (s : jsstring) :
  validateEmail s = true <->
  exists l r, s = l ++ AT :: r /\ noAt l /\ l <> [] /\ r <> [].
Proof.
  split.
  - intros V.
    assert (Hsplit : In AT s).
    { destruct (in_dec N.eq_dec AT s) as [Hin|Hn]; [exact Hin|].
      rewrite (validateEmail_noAt s Hn) in V. discriminate. }
    assert (Hfirst : exists l r, s = l ++ AT :: r /\ ~ In AT l).
    { clear V. induction s as [|x s IH]; [destruct Hsplit|].
      destruct (N.eq_dec x AT) as [->|Hx].
      - exists [], s. split; [reflexivity|intros []].
      - destruct Hsplit as [E|Hin]; [congruence|].
        destruct (IH Hin) as (l & r & -> & Hl).
        exists (x :: l), r. split; [reflexivity|].
        intros [E|Hin']; [congruence|now apply Hl]. }
    destruct Hfirst as (l & r & -> & Hl).
    exists l, r. repeat split; [exact Hl| |].
    + intros ->. discriminate V.
    + intros ->. rewrite (validateEmail_onlyAt_last l Hl) in V. discriminate.
  - intros (l & r & -> & Hl & Hne & Hr).
    unfold validateEmail, indexOf, strlen.
    destruct l as [|x l]; [congruence|].
    cbn [falsy app].
    change (x :: (l ++ AT :: r)) with ((x :: l) ++ AT :: r).
    rewrite indexOf_from_first by exact Hl. rewrite length_app.
    destruct r as [|y r]; [congruence|]. simpl List.length.
    repeat match goal with
           | |- context [(?a =? ?b)%Z] =>
               destruct (Z.eqb_spec a b); [lia|]
           end.
    reflexivity.
Qed.

(** ** Registry lookups *)

Lemma registered_find (e : jsstring) (registry : list User) :
  registered e registry =
  match find (sameEmail e) registry with Some _ => true | None => false end.
Proof.
  induction registry as [|u registry IH]; simpl; [reflexivity|].
  unfold sameEmail at 1. destruct (streq (email u) e); simpl; auto.
Qed.

Lemma registered_In (e : jsstring) (registry : list User) :
  registered e registry = true <-> In e (emails registry).
Proof.
  unfold registered, emails. rewrite existsb_exists, in_map_iff.
  split; intros (u & A & B).
  - exists u. apply streq_eq in B. auto.
  - exists u. subst e. split; [exact B|apply streq_refl].
Qed.

Lemma unregistered_notIn (e : jsstring) (registry : list User) :
  registered e registry = false <-> ~ In e (emails registry).
Proof.
  rewrite <- registered_In. destruct (registered e registry); split; congruence.
Qed.

Lemma find_sameEmail_Some (e : jsstring) (registry : list User) (u : User) :
  find (sameEmail e) registry = Some u -> email u = e /\ In u registry.
Proof.
  intros F. apply find_some in F as [Hin E].
  apply streq_eq in E. auto.
Qed.


Lemma find_appended (u : User) (registry : list User) :
  registered (email u) registry = false ->
  find (sameEmail (email u)) (registry ++ [u]) = Some u.
Proof.
  induction registry as [|v registry IH]; simpl.
  - intros _. unfold sameEmail. now rewrite streq_refl.
  - unfold sameEmail at 1.
    destruct (streq (email v) (email u)); simpl; [discriminate|exact IH].
Qed.

Lemma emails_app (l r : list User) : emails (l ++ r) = emails l ++ emails r.
Proof. apply map_app. Qed.

Lemma NoDup_snoc {A} (l : list A) (x : A) :
  NoDup l -> ~ In x l -> NoDup (l ++ [x]).
Proof.
  intros Hl Hx. induction Hl as [|y l Hy Hl IH]; simpl.
  - constructor; [intros []|constructor].
  - constructor.
    + rewrite in_app_iff. intros [Hin|[E|[]]]; [now apply Hy|].
      subst y. apply Hx. now left.
    + apply IH. intros Hin. apply Hx. now right.
Qed.

(** ** What each operation computes *)

Section Operations.
Context {text store : Type} `{JSON text} `{AsyncStorage text store}.
Local Open Scope string_scope.

Lemma register_eq (u : User) (w : World store) :
  let us := (users (auth w) ++ [u])%list in
  let write := setItem USERS_KEY (stringify_users us) (disk w) in
  register u w =
  (surfaced (fst write) "Failed to save user data",
   mkWorld {| user := user (auth w); users := us;
              isLoading := isLoading (auth w) |} (snd write)).
Proof.
  cbv zeta. unfold_js.
  destruct (setItem _ _ _) as [[[]|err] s']; reflexivity.
Qed.

Lemma openSession_eq (u : User) (w : World store) :
  let write := setItem USER_KEY (stringify_user u) (disk w) in
  openSession u w =
  (surfaced (fst write) "Failed to save session",
   mkWorld {| user := Some u; users := users (auth w);
              isLoading := isLoading (auth w) |} (snd write)).
Proof.
  cbv zeta. unfold_js.
  destruct (setItem _ _ _) as [[[]|err] s']; reflexivity.
Qed.

Lemma logout_eq (w : World store) :
  let removal := removeItem USER_KEY (disk w) in
  logout w =
  (surfaced (fst removal) "Failed to clear session",
   mkWorld {| user := None; users := users (auth w);
              isLoading := isLoading (auth w) |} (snd removal)).
Proof.
  cbv zeta. unfold_js.
  destruct (removeItem _ _) as [[[]|err] s']; reflexivity.
Qed.

Lemma signup_eq (n e p : jsstring) (w : World store) :
  signup n e p w =
  match firstFailure (signupChecks n e p (users (auth w))) with
  | Some err => (Throw err, w)
  | None => register (mkUser n e p) w
  end.
Proof.
  unfold signup, signupChecks, firstFailure.
  destruct (validateRequired n); [|reflexivity].
  destruct (validateRequired e); [|reflexivity].
  destruct (validateRequired p); [|reflexivity].
  destruct (validateEmail e); [|reflexivity].
  destruct (validatePassword p); [|reflexivity].
  cbn [negb]. rewrite registered_find.
  unfold register, bind at 1, reads. unfold bind at 2, reads.
  destruct (find _ _); reflexivity.
Qed.

Lemma login_eq (e p : jsstring) (w : World store) :
  login e p w =
  match firstFailure (loginChecks e p) with
  | Some err => (Throw err, w)
  | None =>
      match find (sameEmail e) (users (auth w)) with
      | Some foundUser =>
          if streq (password foundUser) p then openSession foundUser w
          else (Throw InvalidCredentials, w)
      | None => (Throw InvalidCredentials, w)
      end
  end.
Proof.
  unfold login, loginChecks, firstFailure.
  destruct (validateRequired e); [|reflexivity].
  destruct (validateRequired p); [|reflexivity].
  destruct (validateEmail e); [|reflexivity].
  cbn [negb]. unfold bind at 1, reads.
  destruct (find _ _) as [u|]; [|reflexivity].
  unfold passwordDiffers. destruct (streq _ _); reflexivity.
Qed.
End Operations.

(** ** The checks, read as a whole *)

Lemma signupChecks_pass (n e p : jsstring) (registry : list User) :
  firstFailure (signupChecks n e p registry) = None <->
  validInputs n e p /\ registered e registry = false.
Proof.
  unfold signupChecks, firstFailure, validInputs.
  destruct (validateRequired n), (validateRequired e), (validateRequired p),
    (validateEmail e), (validatePassword p), (registered e registry);
    cbn [negb]; intuition congruence.
Qed.


Lemma signupChecks_duplicate (n e p : jsstring) (registry : list User) :
  validInputs n e p -> registered e registry = true ->
  firstFailure (signupChecks n e p registry) = Some EmailAlreadyRegistered.
Proof.
  intros (A & B & C & D & E) R. unfold signupChecks, firstFailure.
  now rewrite A, B, C, D, E, R.
Qed.

Lemma signupChecks_registered (n e p : jsstring) (registry : list User) :
  registered e registry = true ->
  exists err, firstFailure (signupChecks n e p registry) = Some err.
Proof.
  intros R. destruct (firstFailure _) as [err|] eqn:F; [now exists err|].
  apply signupChecks_pass in F as [_ F]. congruence.
Qed.

Lemma loginChecks_pass (e p : jsstring) :
  firstFailure (loginChecks e p) = None <->
  validateRequired e = true /\ validateRequired p = true /\
  validateEmail e = true.
Proof.
  unfold loginChecks, firstFailure.
  destruct (validateRequired e), (validateRequired p), (validateEmail e);
    intuition congruence.
Qed.

Lemma loginChecks_fail (e p : jsstring) (err : exn) :
  firstFailure (loginChecks e p) = Some err -> In err validationErrors.
Proof.
  unfold loginChecks, firstFailure, validationErrors.
  destruct (validateRequired e), (validateRequired p), (validateEmail e);
    intros E; inversion E; subst; simpl; tauto.
Qed.

Lemma surfaced_cases (r : outcome unit) (message : string) :
  surfaced r message = Return tt \/ surfaced r message = Throw (Error message).
Proof. destruct r; simpl; auto. Qed.

Lemma surfaced_Return (message : string) :
  surfaced (Return tt) message = Return tt.
Proof. reflexivity. Qed.

Lemma validation_not_persistence (err : exn) :
  In err (validationErrors ++ [InvalidCredentials]) -> ~ PersistenceFailure err.
Proof.
  unfold PersistenceFailure. simpl.
  intros V P.
  repeat match goal with
         | H : _ \/ _ |- _ => destruct H as [H|H]
         | H : False |- _ => destruct H
         end; subst; discriminate.
Qed.

Lemma surfaced_persistence (r : outcome unit) (message : string) :
  PersistenceFailure (Error message) ->
  returnsOrPersistenceFailure (surfaced r message).
Proof.
  intros P. destruct r; [now left|right]. now exists (Error message).
Qed.

(** ** The operations on the state *)

Section Frames.
Context {text store : Type} `{JSON text} `{AsyncStorage text store}.

(** A signup appends its user or changes nothing. *)
Lemma signup_users (n e p : jsstring) (w : World store) :
  users (auth (snd (signup n e p w))) =
  match firstFailure (signupChecks n e p (users (auth w))) with
  | Some _ => users (auth w)
  | None => users (auth w) ++ [mkUser n e p]
  end.
Proof.
  rewrite signup_eq. destruct (firstFailure _); [reflexivity|].
  now rewrite register_eq.
Qed.

Lemma signup_user (n e p : jsstring) (w : World store) :
  user (auth (snd (signup n e p w))) = user (auth w).
Proof.
  rewrite signup_eq. destruct (firstFailure _); [reflexivity|].
  now rewrite register_eq.
Qed.

Lemma login_users (e p : jsstring) (w : World store) :
  users (auth (snd (login e p w))) = users (auth w).
Proof.
  rewrite login_eq. destruct (firstFailure _); [reflexivity|].
  destruct (find _ _) as [u|]; [|reflexivity].
  destruct (streq _ _); [|reflexivity].
  now rewrite openSession_eq.
Qed.

Lemma logout_users (w : World store) :
  users (auth (snd (logout w))) = users (auth w).
Proof. now rewrite logout_eq. Qed.

Lemma exec_keeps_NoDup (o : Op) (w : World store) :
  NoDup (emails (users (auth w))) ->
  NoDup (emails (users (auth (snd (exec o w))))).
Proof.
  intros Hnd. destruct o as [n e p|e p|]; simpl.
  - rewrite signup_users.
    destruct (firstFailure _) eqn:F; [exact Hnd|].
    apply signupChecks_pass in F as [_ F].
    rewrite emails_app. apply NoDup_snoc; [exact Hnd|].
    now apply unregistered_notIn.
  - now rewrite login_users.
  - now rewrite logout_users.
Qed.

End Frames.

(* ================================================================== *)
(** * The claims of the specification *)

Section Claims.
Context {text store : Type} `{JSON text} `{AsyncStorage text store}.
Local Open Scope string_scope.
Local Open Scope list_scope.




(** C7.  A call to signup, whatever it returns, leaves currentUser as it
    was; an operation after which currentUser is a user it was not before
    is a login. *)
Theorem signup_never_authenticates :
  (forall (n e p : jsstring) (w : World store),
      user (auth (snd (signup n e p w))) = user (auth w)) /\
  (forall (o : Op) (w : World store) (u : User),
      user (auth (snd (exec o w))) = Some u ->
      user (auth w) <> Some u ->
      exists e p, o = Login e p).
Proof.
  split; [exact signup_user|].
  intros [n e p|e p|] w u E D; simpl in E.
  - rewrite signup_user in E. contradiction.
  - now exists e, p.
  - rewrite logout_eq in E. discriminate.
Qed.

(** C8.  When the storage rejects the write that follows the in-memory
    change, the operation reports a persistence failure and the change
    stays: the new user stays appended after signup, currentUser stays set
    after login and stays cleared after logout. *)
Theorem no_rollback_on_persistence_failure :
  (forall (n e p : jsstring) (w : World store),
      let u := mkUser n e p in
      firstFailure (signupChecks n e p (users (auth w))) = None ->
      rejects USERS_KEY (stringify_users (users (auth w) ++ [u])) (disk w) ->
      fst (signup n e p w) = Throw (Error "Failed to save user data") /\
      PersistenceFailure (Error "Failed to save user data") /\
      users (auth (snd (signup n e p w))) = users (auth w) ++ [u]) /\
  (forall (e p : jsstring) (w : World store) (u : User),
      firstFailure (loginChecks e p) = None ->
      find (sameEmail e) (users (auth w)) = Some u ->
      password u = p ->
      rejects USER_KEY (stringify_user u) (disk w) ->
      fst (login e p w) = Throw (Error "Failed to save session") /\
      PersistenceFailure (Error "Failed to save session") /\
      user (auth (snd (login e p w))) = Some u) /\
  (forall (w : World store),
      (exists err, fst (removeItem USER_KEY (disk w)) = Throw err) ->
      fst (logout w) = Throw (Error "Failed to clear session") /\
      PersistenceFailure (Error "Failed to clear session") /\
      user (auth (snd (logout w))) = None).
Proof.
  split; [|split].
  - intros n e p w u C [err R]. rewrite signup_eq, C, register_eq.
    cbn [fst snd auth users]. fold u. rewrite R.
    unfold PersistenceFailure. simpl. repeat split; auto 6.
  - intros e p w u C F P [err R]. rewrite login_eq, C, F.
    rewrite <- P, streq_refl, openSession_eq.
    cbn [fst snd auth user]. rewrite R.
    unfold PersistenceFailure. simpl. repeat split; auto 6.
  - intros w [err R]. rewrite logout_eq.
    cbn [fst snd auth user]. rewrite R.
    unfold PersistenceFailure. simpl. repeat split; auto 6.
Qed.

Lemma getUser_eq (s : store) :
  getUser s = (Return (sessionRead s), snd (getItem USER_KEY s)).
Proof.
  unfold sessionRead. unfold_js.
  destruct (getItem USER_KEY s) as [[[t|]|err] s1]; try reflexivity.
  cbn [snd]. destruct (parse_user t) as [[u|]|err]; reflexivity.
Qed.

Lemma getUsers_eq (s : store) :
  getUsers s =
  (Return (match registryRead s with Some us => us | None => [] end),
   snd (getItem USERS_KEY s)).
Proof.
  unfold registryRead. unfold_js.
  destruct (getItem USERS_KEY s) as [[[t|]|err] s1]; try reflexivity.
  cbn [snd]. destruct (parse_users t) as [us|err]; reflexivity.
Qed.

Lemma loadStoredAuth_eq (w : World store) :
  let s1 := snd (getItem USER_KEY (disk w)) in
  let s2 := snd (getItem USERS_KEY s1) in
  loadStoredAuth w =
  (Return tt,
   mkWorld
     {| user := match sessionRead (disk w) with
                | Some u => Some u
                | None => user (auth w)
                end;
        users := match registryRead s1 with Some us => us | None => [] end;
        isLoading := false |} s2).
Proof.
  cbv zeta. unfold loadStoredAuth.
  unfold await, setUsers, setUser, setIsLoading, modify, bind, try_catch,
    try_finally, ret.
  cbn [auth disk user users isLoading].
  rewrite getUser_eq. cbn [auth disk user users isLoading].
  rewrite getUsers_eq.
  destruct (sessionRead (disk w)); reflexivity.
Qed.

(** C9.  Whatever the two reads of start-up come to, initialization returns
    without an error and with the loading flag false; currentUser is the
    stored session when it could be read and absent otherwise, and the
    registry is the stored one when it could be read and empty otherwise:
    in particular a rejected or absent session read leaves currentUser
    absent and a rejected or absent registry read leaves the registry
    empty. *)
Theorem loadStoredAuth_graceful (s : store) :
  let w := snd (loadStoredAuth (mkWorld initialState s)) in
  let s1 := snd (getItem USER_KEY s) in
  fst (loadStoredAuth (mkWorld initialState s)) = Return tt /\
  isLoading (auth w) = false /\
  user (auth w) = sessionRead s /\
  users (auth w) =
    match registryRead s1 with Some us => us | None => [] end /\
  ((forall t, fst (getItem USER_KEY s) <> Return (Some t)) ->
   user (auth w) = None) /\
  ((forall t, fst (getItem USERS_KEY s1) <> Return (Some t)) ->
   users (auth w) = []) /\
  (forall t err,
      fst (getItem USER_KEY s) = Return (Some t) ->
      parse_user t = Throw err -> user (auth w) = None) /\
  (forall t err,
      fst (getItem USERS_KEY s1) = Return (Some t) ->
      parse_users t = Throw err -> users (auth w) = []).
Proof.
  cbv zeta. rewrite loadStoredAuth_eq.
  cbn [fst snd auth disk user users isLoading initialState].
  assert (E : match sessionRead s with
              | Some u => Some u
              | None => None
              end = sessionRead s) by (destruct (sessionRead s); reflexivity).
  rewrite E. repeat split.
  - intros A. unfold sessionRead.
    destruct (getItem USER_KEY s) as [[[t|]|err] s1]; try reflexivity.
    exfalso. now apply (A t).
  - intros A. unfold registryRead.
    destruct (getItem USERS_KEY _) as [[[t|]|err] s2]; try reflexivity.
    exfalso. now apply (A t).
  - intros t err A P. unfold sessionRead.
    destruct (getItem USER_KEY s) as [r s1]. cbn [fst] in A. subst r.
    now rewrite P.
  - intros t err A P. unfold registryRead.
    destruct (getItem USERS_KEY _) as [r s2]. cbn [fst] in A. subst r.
    now rewrite P.
Qed.

(** C10.  When signup or login fails with one of the six validation errors
    or with InvalidCredentials, the state it leaves is the state it was
    called in: currentUser and the registry, and the store with them, are
    as they were. *)
Theorem validation_failures_atomic (err : exn) (w w' : World store) :
  In err (validationErrors ++ [InvalidCredentials]) ->
  (forall n e p, signup n e p w = (Throw err, w') ->
                 w' = w /\ user (auth w') = user (auth w) /\
                 users (auth w') = users (auth w)) /\
  (forall e p, login e p w = (Throw err, w') ->
               w' = w /\ user (auth w') = user (auth w) /\
               users (auth w') = users (auth w)).
Proof.
  intros V.
  assert (P : forall message r (w1 : World store),
             PersistenceFailure (Error message) ->
             (surfaced r message, w1) = (Throw err, w') -> False).
  { intros message r w1 PF E.
    destruct (surfaced_cases r message) as [S|S]; rewrite S in E;
      inversion E; subst err.
    exact (validation_not_persistence _ V PF). }
  split.
  - intros n e p E. rewrite signup_eq in E.
    destruct (firstFailure _).
    + inversion E; subst. auto.
    + rewrite register_eq in E. exfalso. revert E. apply P.
      unfold PersistenceFailure. simpl. auto.
  - intros e p E. rewrite login_eq in E.
    destruct (firstFailure _); [inversion E; subst; auto|].
    destruct (find _ _) as [u|]; [|inversion E; subst; auto].
    destruct (streq _ _); [|inversion E; subst; auto].
    rewrite openSession_eq in E. exfalso. revert E. apply P.
    unfold PersistenceFailure. simpl. auto.
Qed.
End Claims.

(** C4, as amended.  [validateEmail] is false for every string without
    ['@'], for every string whose first character is ['@'], and for every
    string whose last character is ['@'] and which has no ['@'] before
    it. *)
Theorem validateEmail_boundary (s : jsstring) :
  (noAt s -> validateEmail s = false) /\
  (startsWithAt s -> validateEmail s = false) /\
  (forall r, s = r ++ [AT] -> noAt r -> validateEmail s = false).
Proof.
  split; [apply validateEmail_noAt|split; [apply validateEmail_startsWithAt|]].
  intros r -> Hr. now apply validateEmail_onlyAt_last.
Qed.

(* ================================================================== *)
(** * The claims at concrete inputs *)

Import Demo.

(** ['@'] is the last character of ["a@b@"], and [validateEmail] accepts it:
    only the first ['@'] is looked at. *)
Lemma validateEmail_accepts_trailing_at :
  endsWithAt (str "a@b@") /\ validateEmail (str "a@b@") = true.
Proof.
  split; [|reflexivity]. now exists (str "a@b").
Qed.

Lemma validateEmail_boundary_witness :
  validateEmail (str "ann.x.com") = false /\
  validateEmail (str "@x.com") = false /\
  validateEmail (str "ann@") = false.
Proof.
  split; [|split].
  - apply (proj1 (validateEmail_boundary (str "ann.x.com"))).
    vm_compute. intuition discriminate.
  - apply (proj1 (proj2 (validateEmail_boundary (str "@x.com")))).
    now exists (str "x.com").
  - apply (proj2 (proj2 (validateEmail_boundary (str "ann@"))) (str "ann")).
    + reflexivity.
    + vm_compute. intuition discriminate.
Defined.






Lemma signup_never_authenticates_witness :
  user (auth (snd (signup (str "Ann") (str "ann@x.com") (str "secret1")
                     (ready [] emptyDisk)))) = None /\
  exists e p, Login (str "ann@x.com") (str "secret1") = Login e p.
Proof.
  destruct (@signup_never_authenticates doc Disk _ _) as (A & B).
  split.
  - exact (A (str "Ann") (str "ann@x.com") (str "secret1")
             (ready [] emptyDisk)).
  - apply (B (Login (str "ann@x.com") (str "secret1"))
             (ready [ann] emptyDisk) ann).
    + reflexivity.
    + vm_compute. discriminate.
Defined.

Lemma no_rollback_on_persistence_failure_witness :
  (fst (signup (str "Ann") (str "ann@x.com") (str "secret1")
          (ready [bob] readOnlyDisk))
   = Throw (Error "Failed to save user data") /\
   users (auth (snd (signup (str "Ann") (str "ann@x.com") (str "secret1")
                       (ready [bob] readOnlyDisk))))
   = [bob; ann]) /\
  (fst (login (str "ann@x.com") (str "secret1") (ready [ann] readOnlyDisk))
   = Throw (Error "Failed to save session") /\
   user (auth (snd (login (str "ann@x.com") (str "secret1")
                      (ready [ann] readOnlyDisk))))
   = Some ann) /\
  (fst (logout (mkWorld {| user := Some ann; users := [ann];
                           isLoading := false |} readOnlyDisk))
   = Throw (Error "Failed to clear session") /\
   user (auth (snd (logout (mkWorld {| user := Some ann; users := [ann];
                                       isLoading := false |} readOnlyDisk))))
   = None).
Proof.
  destruct (@no_rollback_on_persistence_failure doc Disk _ _) as (A & B & C).
  split; [|split].
  - destruct (A (str "Ann") (str "ann@x.com") (str "secret1")
                (ready [bob] readOnlyDisk)) as (A1 & _ & A2).
    + reflexivity.
    + exists (Error "write rejected"). reflexivity.
    + split; [exact A1|exact A2].
  - destruct (B (str "ann@x.com") (str "secret1")
                (ready [ann] readOnlyDisk) ann) as (B1 & _ & B2).
    + reflexivity.
    + reflexivity.
    + reflexivity.
    + exists (Error "write rejected"). reflexivity.
    + split; [exact B1|exact B2].
  - destruct (C (mkWorld {| user := Some ann; users := [ann];
                            isLoading := false |} readOnlyDisk))
      as (C1 & _ & C2).
    + exists (Error "write rejected"). reflexivity.
    + split; [exact C1|exact C2].
Defined.

Lemma loadStoredAuth_graceful_witness :
  (fst (loadStoredAuth (fresh deadDisk)) = Return tt /\
   auth (snd (loadStoredAuth (fresh deadDisk)))
   = {| user := None; users := []; isLoading := false |}) /\
  (fst (loadStoredAuth (fresh corruptDisk)) = Return tt /\
   auth (snd (loadStoredAuth (fresh corruptDisk)))
   = {| user := None; users := []; isLoading := false |}) /\
  (fst (loadStoredAuth (fresh savedDisk)) = Return tt /\
   auth (snd (loadStoredAuth (fresh savedDisk)))
   = {| user := Some ann; users := [ann]; isLoading := false |}).
Proof.
  split; [|split].
  - destruct (loadStoredAuth_graceful deadDisk)
      as (R & L & _ & _ & U & Us & _).
    split; [exact R|].
    assert (U' := U ltac:(vm_compute; discriminate)).
    assert (Us' := Us ltac:(vm_compute; discriminate)).
    unfold fresh in *.
    destruct (auth (snd (loadStoredAuth (mkWorld initialState deadDisk)))).
    cbn [user users isLoading] in *. now subst.
  - destruct (loadStoredAuth_graceful corruptDisk)
      as (R & L & _ & _ & _ & _ & U & Us).
    split; [exact R|].
    assert (U' := U Corrupt (Error "SyntaxError") eq_refl eq_refl).
    assert (Us' := Us Corrupt (Error "SyntaxError") eq_refl eq_refl).
    unfold fresh in *.
    destruct (auth (snd (loadStoredAuth (mkWorld initialState corruptDisk)))).
    cbn [user users isLoading] in *. now subst.
  - destruct (loadStoredAuth_graceful savedDisk)
      as (R & L & U & Us & _).
    split; [exact R|].
    unfold fresh in *.
    destruct (auth (snd (loadStoredAuth (mkWorld initialState savedDisk)))).
    cbn [user users isLoading] in *. now subst.
Defined.

Lemma validation_failures_atomic_witness :
  In NameRequired (validationErrors ++ [InvalidCredentials]) /\
  signup (str "") (str "ann@x.com") (str "secret1") (ready [ann] emptyDisk)
  = (Throw NameRequired, ready [ann] emptyDisk) /\
  ready [ann] emptyDisk = ready [ann] emptyDisk.
Proof.
  assert (I : In NameRequired (validationErrors ++ [InvalidCredentials]))
    by (left; reflexivity).
  assert (E : signup (str "") (str "ann@x.com") (str "secret1")
                (ready [ann] emptyDisk)
              = (Throw NameRequired, ready [ann] emptyDisk))
    by reflexivity.
  split; [exact I|split; [exact E|]].
  exact (proj1 (proj1 (validation_failures_atomic NameRequired
                         (ready [ann] emptyDisk) (ready [ann] emptyDisk) I)
                  (str "") (str "ann@x.com") (str "secret1") E)).
Defined.

(* ================================================================== *)
(** * Further properties of the validators *)

Lemma trimStart_all_white (s : jsstring) :
  forallb isWhiteSpace (trimStart s) = forallb isWhiteSpace s.
Proof.
  induction s as [|c r IH]; simpl; [reflexivity|].
  destruct (isWhiteSpace c) eqn:W; simpl; [exact IH|].
  now rewrite W.
Qed.

Lemma trimStart_nil (s : jsstring) :
  trimStart s = [] <-> forallb isWhiteSpace s = true.
Proof.
  induction s as [|c r IH]; simpl; [tauto|].
  destruct (isWhiteSpace c); simpl; [exact IH|].
  split; discriminate.
Qed.

Lemma forallb_rev {A} (f : A -> bool) (l : list A) :
  forallb f (rev l) = forallb f l.
Proof.
  induction l as [|x l IH]; simpl; [reflexivity|].
  rewrite forallb_app, IH. simpl. rewrite andb_true_r. apply andb_comm.
Qed.

Lemma trim_nil (s : jsstring) :
  trim s = [] <-> forallb isWhiteSpace s = true.
Proof.
  unfold trim, trimEnd.
  rewrite <- (trimStart_all_white s), <- (forallb_rev _ (trimStart s)).
  rewrite <- trimStart_nil.
  split; intros E.
  - apply (f_equal (@rev N)) in E. now rewrite rev_involutive in E.
  - now rewrite E.
Qed.

Lemma validateRequired_false_iff (s : jsstring) :
  validateRequired s = false <-> forallb isWhiteSpace s = true.
Proof.
  unfold validateRequired, strlen. rewrite <- trim_nil.
  destruct s as [|c r]; [simpl; tauto|]. cbn [falsy].
  destruct (trim (c :: r)) as [|x t]; simpl; split; try reflexivity;
    try discriminate; congruence.
Qed.

(** X1.  [validatePassword] accepts exactly the strings of six code units or
    more; the empty-string guard never decides otherwise. *)
Theorem validatePassword_length (s : jsstring) :
  validatePassword s = true <-> 6 <= List.length s.
Proof.
  unfold validatePassword, strlen.
  destruct s as [|c r]; cbn [falsy].
  - simpl. split; [discriminate|lia].
  - rewrite Z.geb_le. lia.
Qed.

(** X2.  [validateRequired] accepts exactly the strings that hold a code
    unit other than white space: the empty string and every string made of
    white space only are rejected, every other string is accepted. *)
Theorem validateRequired_nonblank (s : jsstring) :
  validateRequired s = true <-> exists c, In c s /\ isWhiteSpace c = false.
Proof.
  split.
  - intros V. destruct (forallb isWhiteSpace s) eqn:F.
    + apply validateRequired_false_iff in F. congruence.
    + clear V. induction s as [|c r IH]; [discriminate|].
      simpl in F. destruct (isWhiteSpace c) eqn:W.
      * destruct (IH F) as (x & Hin & Hx). exists x. split; [now right|exact Hx].
      * exists c. split; [now left|exact W].
  - intros (c & Hin & W).
    destruct (validateRequired s) eqn:V; [reflexivity|].
    apply validateRequired_false_iff in V.
    rewrite forallb_forall in V. rewrite (V c Hin) in W. discriminate.
Qed.

(** X4.  Every string [validateEmail] accepts is accepted by
    [validateRequired]: an email that fails the required check would fail
    the format check as well. *)
Theorem validateEmail_required (s : jsstring) :
  validateEmail s = true -> validateRequired s = true.
Proof.
  intros V. destruct (validateRequired s) eqn:R; [reflexivity|].
  apply validateRequired_false_iff in R. rewrite forallb_forall in R.
  destruct (in_dec N.eq_dec AT s) as [Hin|Hn].
  - specialize (R AT Hin). discriminate R.
  - rewrite (validateEmail_noAt s Hn) in V. discriminate.
Qed.

Lemma validatePassword_length_witness :
  validatePassword (str "secret") = true /\ 6 <= List.length (str "secret").
Proof.
  assert (L : 6 <= List.length (str "secret")) by (vm_compute; lia).
  split; [|exact L].
  exact (proj2 (validatePassword_length (str "secret")) L).
Defined.

Lemma validateRequired_nonblank_witness :
  validateRequired (str "  a ") = true.
Proof.
  apply (proj2 (validateRequired_nonblank (str "  a "))).
  exists 97%N. split; [|reflexivity]. vm_compute. auto.
Defined.

Lemma validateEmail_shape_witness :
  validateEmail (str "a@@b") = true.
Proof.
  apply (proj2 (validateEmail_shape (str "a@@b"))).
  exists (str "a"), (str "@b").
  split; [reflexivity|]. split; [|split; discriminate].
  vm_compute. intuition discriminate.
Defined.

Lemma validateEmail_required_witness :
  validateEmail (str " @ ") = true /\ validateRequired (str " @ ") = true.
Proof.
  assert (V : validateEmail (str " @ ") = true) by reflexivity.
  split; [exact V|]. exact (validateEmail_required (str " @ ") V).
Defined.

(* ================================================================== *)
(** * The storage service *)

Lemma keys_differ : USER_KEY <> USERS_KEY.
Proof.
  intros E. apply (f_equal (@List.length N)) in E. discriminate E.
Qed.

Section StorageFacts.
Context {text store : Type} `{JSON text} `{AsyncStorage text store}.

Lemma saveUser_eq (u : User) (s : store) :
  saveUser u s = setItem USER_KEY (stringify_user u) s.
Proof.
  unfold saveUser, try_catch, throw.
  destruct (setItem _ _ s) as [[a|err] s']; reflexivity.
Qed.

Lemma saveUsers_eq (us : list User) (s : store) :
  saveUsers us s = setItem USERS_KEY (stringify_users us) s.
Proof.
  unfold saveUsers, try_catch, throw.
  destruct (setItem _ _ s) as [[a|err] s']; reflexivity.
Qed.

Lemma removeUser_eq (s : store) : removeUser s = removeItem USER_KEY s.
Proof.
  unfold removeUser, try_catch, throw.
  destruct (removeItem _ s) as [[a|err] s']; reflexivity.
Qed.

(** What [getUser] and [getUsers] return is decided by the outcome of the
    read alone. *)
Lemma getUser_read (s s' : store) :
  fst (getItem USER_KEY s) = fst (getItem USER_KEY s') ->
  fst (getUser s) = fst (getUser s').
Proof.
  intros E. rewrite !getUser_eq. cbn [fst]. unfold sessionRead.
  destruct (getItem USER_KEY s) as [r s1], (getItem USER_KEY s') as [r' s1'].
  cbn [fst] in E. now subst r'.
Qed.

Lemma getUsers_read (s s' : store) :
  fst (getItem USERS_KEY s) = fst (getItem USERS_KEY s') ->
  fst (getUsers s) = fst (getUsers s').
Proof.
  intros E. rewrite !getUsers_eq. cbn [fst]. unfold registryRead.
  destruct (getItem USERS_KEY s) as [r s1], (getItem USERS_KEY s') as [r' s1'].
  cbn [fst] in E. now subst r'.
Qed.

Lemma getUser_of_read (s : store) (t : text) (u : User) :
  fst (getItem USER_KEY s) = Return (Some t) ->
  parse_user t = Return (Some u) ->
  fst (getUser s) = Return (Some u).
Proof.
  intros G P. rewrite getUser_eq. cbn [fst]. unfold sessionRead.
  destruct (getItem USER_KEY s) as [r s1]. cbn [fst] in G. subst r.
  now rewrite P.
Qed.

Lemma getUser_of_absent (s : store) :
  fst (getItem USER_KEY s) = Return None -> fst (getUser s) = Return None.
Proof.
  intros G. rewrite getUser_eq. cbn [fst]. unfold sessionRead.
  destruct (getItem USER_KEY s) as [r s1]. cbn [fst] in G. now subst r.
Qed.

Lemma getUsers_of_read (s : store) (t : text) (us : list User) :
  fst (getItem USERS_KEY s) = Return (Some t) ->
  parse_users t = Return us ->
  fst (getUsers s) = Return us.
Proof.
  intros G P. rewrite getUsers_eq. cbn [fst]. unfold registryRead.
  destruct (getItem USERS_KEY s) as [r s1]. cbn [fst] in G. subst r.
  now rewrite P.
Qed.

(** X5.  [saveUser], [saveUsers] and [removeUser] hand on the outcome of the
    storage call as it is: they reject exactly when the call rejects, with
    the error it rejected with, and leave the store as the call left it. *)
Theorem storage_writes_pass_on (u : User) (us : list User) (s : store) :
  saveUser u s = setItem USER_KEY (stringify_user u) s /\
  saveUsers us s = setItem USERS_KEY (stringify_users us) s /\
  removeUser s = removeItem USER_KEY s /\
  (forall err, fst (setItem USER_KEY (stringify_user u) s) = Throw err ->
               fst (saveUser u s) = Throw err) /\
  (forall err, fst (setItem USERS_KEY (stringify_users us) s) = Throw err ->
               fst (saveUsers us s) = Throw err) /\
  (forall err, fst (removeItem USER_KEY s) = Throw err ->
               fst (removeUser s) = Throw err).
Proof.
  rewrite saveUser_eq, saveUsers_eq, removeUser_eq. repeat split; auto.
Qed.

Context `{!LawfulJSON} `{!LawfulStorage}.

(** X6.  On a platform that keeps its contract, a session that [saveUser]
    stored is the one [getUser] returns, and after [removeUser] has returned
    [getUser] returns null. *)
Theorem session_round_trip (u : User) (s s' : store) :
  (saveUser u s = (Return tt, s') -> fst (getUser s') = Return (Some u)) /\
  (removeUser s = (Return tt, s') -> fst (getUser s') = Return None).
Proof.
  split; intros E.
  - rewrite saveUser_eq in E. apply get_set in E.
    exact (getUser_of_read s' _ u E (parse_stringify_user u)).
  - rewrite removeUser_eq in E. apply get_remove in E.
    exact (getUser_of_absent s' E).
Qed.

(** X7.  On a platform that keeps its contract, a registry that [saveUsers]
    stored is the one [getUsers] returns, in the same order. *)
Theorem registry_round_trip (us : list User) (s s' : store) :
  saveUsers us s = (Return tt, s') -> fst (getUsers s') = Return us.
Proof.
  intros E. rewrite saveUsers_eq in E. apply get_set in E.
  exact (getUsers_of_read s' _ us E (parse_stringify_users us)).
Qed.

(** X8.  The session and the registry are stored apart: saving or removing
    the session does not change what [getUsers] returns, and saving the
    registry does not change what [getUser] returns. *)
Theorem session_registry_independent (u : User) (us : list User)
  (s s' : store) :
  (saveUser u s = (Return tt, s') -> fst (getUsers s') = fst (getUsers s)) /\
  (removeUser s = (Return tt, s') -> fst (getUsers s') = fst (getUsers s)) /\
  (saveUsers us s = (Return tt, s') -> fst (getUser s') = fst (getUser s)).
Proof.
  split; [|split]; intros E.
  - rewrite saveUser_eq in E. apply getUsers_read.
    exact (get_set_other _ _ _ _ _ keys_differ E).
  - rewrite removeUser_eq in E. apply getUsers_read.
    exact (get_remove_other _ _ _ _ keys_differ E).
  - rewrite saveUsers_eq in E. apply getUser_read.
    refine (get_set_other _ _ _ _ _ _ E).
    intros K. apply keys_differ. now symmetry.
Qed.
End StorageFacts.

(* ================================================================== *)
(** * The provider, beyond the claims *)


Section ProviderFacts.
Context {text store : Type} `{JSON text} `{AsyncStorage text store}.
Local Open Scope string_scope.
Local Open Scope list_scope.

(** What one operation does to the registry. *)
Lemma exec_users (o : Op) (w : World store) :
  users (auth (snd (exec o w))) = users (auth w) \/
  exists u, validUser u /\ registered (email u) (users (auth w)) = false /\
            users (auth (snd (exec o w))) = users (auth w) ++ [u].
Proof.
  destruct o as [n e p|e p|]; simpl.
  - rewrite signup_users. destruct (firstFailure _) eqn:F; [now left|].
    right. apply signupChecks_pass in F as [V R].
    exists (mkUser n e p). auto.
  - left. apply login_users.
  - left. apply logout_users.
Qed.

(** What one operation does to currentUser. *)
Lemma exec_user (o : Op) (w : World store) :
  user (auth (snd (exec o w))) = user (auth w) \/
  user (auth (snd (exec o w))) = None \/
  exists u, In u (users (auth w)) /\
            user (auth (snd (exec o w))) = Some u.
Proof.
  destruct o as [n e p|e p|]; simpl.
  - left. apply signup_user.
  - rewrite login_eq. destruct (firstFailure _); [now left|].
    destruct (find _ _) as [u|] eqn:F; [|now left].
    destruct (streq _ _); [|now left].
    right. right. exists u. rewrite openSession_eq.
    split; [exact (proj2 (find_sameEmail_Some _ _ _ F))|reflexivity].
  - right. left. now rewrite logout_eq.
Qed.

Lemma exec_isLoading (o : Op) (w : World store) :
  isLoading (auth (snd (exec o w))) = isLoading (auth w).
Proof.
  destruct o as [n e p|e p|]; simpl.
  - rewrite signup_eq. destruct (firstFailure _); [reflexivity|].
    now rewrite register_eq.
  - rewrite login_eq. destruct (firstFailure _); [reflexivity|].
    destruct (find _ _) as [u|]; [|reflexivity].
    destruct (streq _ _); [|reflexivity].
    now rewrite openSession_eq.
  - now rewrite logout_eq.
Qed.




(** X12.  logout always clears currentUser and touches nothing else in
    memory; it returns when the storage accepts the removal and reports
    "Failed to clear session" otherwise. *)
Theorem logout_always_clears (w : World store) :
  auth (snd (logout w)) =
    {| user := None; users := users (auth w);
       isLoading := isLoading (auth w) |} /\
  fst (logout w) =
    surfaced (fst (removeItem USER_KEY (disk w))) "Failed to clear session".
Proof. rewrite logout_eq. split; reflexivity. Qed.

(** X13.  No operation sets the loading flag: along any sequence of signup,
    login and logout calls it keeps the value it had, so a provider that is
    ready stays ready. *)
Theorem run_keeps_isLoading (ops : list Op) (w : World store) :
  isLoading (auth (run ops w)) = isLoading (auth w).
Proof.
  revert w. induction ops as [|o ops IH]; intros w; simpl; [reflexivity|].
  rewrite IH. apply exec_isLoading.
Qed.

(** X16.  Only validated users are registered: if every entry of the
    registry has a non-blank name, a valid non-blank email and a non-blank
    password of six code units or more, this is so after any sequence of
    signup, login and logout calls. *)
Theorem run_keeps_registry_valid (ops : list Op) (w : World store) :
  Forall validUser (users (auth w)) ->
  Forall validUser (users (auth (run ops w))).
Proof.
  revert w. induction ops as [|o ops IH]; intros w V; simpl; [exact V|].
  apply IH. destruct (exec_users o w) as [U|(u & Vu & _ & U)]; rewrite U.
  - exact V.
  - apply Forall_app. split; [exact V|]. now constructor.
Qed.
End ProviderFacts.

(* ================================================================== *)
(** * Memory and store *)

Lemma persistence_registry :
  PersistenceFailure (Error "Failed to save user data").
Proof. unfold PersistenceFailure. simpl. auto. Qed.

Lemma persistence_session :
  PersistenceFailure (Error "Failed to save session").
Proof. unfold PersistenceFailure. simpl. auto. Qed.

Lemma persistence_removal :
  PersistenceFailure (Error "Failed to clear session").
Proof. unfold PersistenceFailure. simpl. auto 6. Qed.

Section Persistence.
Context {text store : Type} `{JSON text} `{AsyncStorage text store}.
Context `{!LawfulJSON} `{!LawfulStorage}.

Lemma accepted_unless_persistence (message : string)
  (write : outcome unit * store) :
  PersistenceFailure (Error message) ->
  (forall err, surfaced (fst write) message = Throw err ->
               ~ PersistenceFailure err) ->
  write = (Return tt, snd write).
Proof.
  intros P N. destruct write as [[[]|err] s1]; [reflexivity|].
  exfalso. exact (N (Error message) eq_refl P).
Qed.

(** X17.  Start-up leaves memory and store in step: after [loadStoredAuth]
    on any store of a platform that keeps its contract, reading the session
    and the registry back from the store gives currentUser and the
    registry. *)
Theorem startup_synced (s : store) :
  synced (snd (loadStoredAuth (mkWorld initialState s))).
Proof.
  rewrite loadStoredAuth_eq. cbn [snd auth disk user users initialState].
  rewrite !get_keeps. unfold synced. cbn [auth disk user users].
  rewrite getUser_eq, getUsers_eq. cbn [fst].
  split; [|reflexivity]. now destruct (sessionRead s).
Qed.

(** X18.  The store keeps up with the memory: if memory and store are in
    step before a signup, login or logout, they are in step after it, unless
    the operation reports a persistence failure. *)
Theorem exec_keeps_synced (o : Op) (w : World store) :
  synced w ->
  (forall err, fst (exec o w) = Throw err -> ~ PersistenceFailure err) ->
  synced (snd (exec o w)).
Proof.
  intros [Su Sr] N. destruct o as [n e p|e p|]; simpl in *.
  - rewrite signup_eq in *. destruct (firstFailure _); [now split|].
    rewrite register_eq in *. cbn [fst snd] in *.
    assert (W := accepted_unless_persistence _ _ persistence_registry N).
    unfold synced. cbn [auth disk user users]. split.
    + rewrite <- Su. apply getUser_read.
      refine (get_set_other _ _ _ _ _ _ W).
      intros K. apply keys_differ. now symmetry.
    + refine (getUsers_of_read _ _ _ (get_set _ _ _ _ W)
                (parse_stringify_users _)).
  - rewrite login_eq in *. destruct (firstFailure _); [now split|].
    destruct (find _ _) as [u|]; [|now split].
    destruct (streq _ _); [|now split].
    rewrite openSession_eq in *. cbn [fst snd] in *.
    assert (W := accepted_unless_persistence _ _ persistence_session N).
    unfold synced. cbn [auth disk user users]. split.
    + refine (getUser_of_read _ _ _ (get_set _ _ _ _ W)
                (parse_stringify_user _)).
    + rewrite <- Sr. apply getUsers_read.
      exact (get_set_other _ _ _ _ _ keys_differ W).
  - rewrite logout_eq in *. cbn [fst snd] in *.
    assert (W := accepted_unless_persistence _ _ persistence_removal N).
    unfold synced. cbn [auth disk user users]. split.
    + exact (getUser_of_absent _ (get_remove _ _ _ W)).
    + rewrite <- Sr. apply getUsers_read.
      exact (get_remove_other _ _ _ _ keys_differ W).
Qed.

(** X19.  A restart restores what was in memory: when memory and store are
    in step, starting the application again on the store gives the same
    currentUser and the same registry, with the loading flag false. *)
Theorem restart_restores (w : World store) :
  synced w ->
  auth (restart w) =
    {| user := user (auth w); users := users (auth w); isLoading := false |}.
Proof.
  intros [Su Sr]. unfold restart. rewrite loadStoredAuth_eq.
  cbn [snd auth disk user users initialState]. rewrite get_keeps.
  rewrite getUser_eq in Su. rewrite getUsers_eq in Sr. cbn [fst] in Su, Sr.
  inversion Su as [Eu]. inversion Sr as [Er]. rewrite Eu, Er.
  now destruct (user (auth w)).
Qed.
End Persistence.

(* ================================================================== *)
(** * The screens and the navigator *)

Lemma login_form_valid_iff (sc : LoginScreen.State) :
  fst (LoginScreen.validateForm sc) = true <->
  firstFailure
    (loginChecks (LoginScreen.email sc) (LoginScreen.password sc)) = None.
Proof.
  unfold LoginScreen.validateForm, LoginScreen.newErrors, Form.keys,
    loginChecks, firstFailure. cbn [fst Form.name Form.email Form.password
    Form.general].
  destruct (validateRequired (LoginScreen.email sc)),
    (validateRequired (LoginScreen.password sc)),
    (validateEmail (LoginScreen.email sc)); simpl; split; congruence.
Qed.

Lemma signup_form_valid_iff (sc : SignupScreen.State) :
  fst (SignupScreen.validateForm sc) = true <->
  validInputs (SignupScreen.name sc) (SignupScreen.email sc)
    (SignupScreen.password sc).
Proof.
  unfold SignupScreen.validateForm, SignupScreen.newErrors, Form.keys,
    validInputs. cbn [fst Form.name Form.email Form.password Form.general].
  destruct (validateRequired (SignupScreen.name sc)),
    (validateRequired (SignupScreen.email sc)),
    (validateRequired (SignupScreen.password sc)),
    (validateEmail (SignupScreen.email sc)),
    (validatePassword (SignupScreen.password sc)); simpl;
    intuition congruence.
Qed.

Section ScreenFacts.
Context {text store : Type} `{JSON text} `{AsyncStorage text store}.
Local Open Scope string_scope.
Local Open Scope list_scope.

(** X20.  The login form stands in front of the provider.  When a field
    check fails, [handleLogin] does not call login: memory and store are
    untouched and the form shows field errors and no general error.  When
    the form passes, login is called with the two fields and cannot fail on
    a field check: a general error is shown exactly when login throws, and
    it is "Invalid credentials" or "Failed to save session". *)
Theorem handleLogin_guarded (sc : LoginScreen.State) (w : World store) :
  let e := LoginScreen.email sc in
  let p := LoginScreen.password sc in
  let sc' := fst (LoginScreen.handleLogin sc w) in
  let w' := snd (LoginScreen.handleLogin sc w) in
  if fst (LoginScreen.validateForm sc)
  then
    w' = snd (login e p w) /\
    match Form.general (LoginScreen.errors sc') with
    | None => fst (login e p w) = Return tt
    | Some m =>
        fst (login e p w) = Throw (Error m) /\
        (m = "Invalid credentials" \/ m = "Failed to save session")
    end /\
    Form.keys (LoginScreen.errors sc') =
      Form.present (Form.general (LoginScreen.errors sc')) "general"
  else
    w' = w /\
    LoginScreen.errors sc' = LoginScreen.newErrors sc /\
    Form.general (LoginScreen.errors sc') = None /\
    Form.keys (LoginScreen.errors sc') <> [].
Proof.
  cbv zeta. unfold LoginScreen.handleLogin.
  destruct (LoginScreen.validateForm sc) as [valid sc1] eqn:VF.
  cbn [fst]. destruct valid; cbn [negb].
  - assert (C := proj1 (login_form_valid_iff sc)).
    rewrite VF in C. specialize (C eq_refl).
    assert (E1 : LoginScreen.errors sc1 = LoginScreen.newErrors sc).
    { unfold LoginScreen.validateForm in VF. inversion VF. reflexivity. }
    assert (K : Form.keys (LoginScreen.newErrors sc) = []).
    { unfold LoginScreen.validateForm in VF. inversion VF as [[L S]].
      destruct (Form.keys (LoginScreen.newErrors sc)); [reflexivity|].
      discriminate L. }
    assert (G : Form.general (LoginScreen.errors sc1) = None)
      by (rewrite E1; reflexivity).
    rewrite login_eq, C.
    destruct (find _ _) as [u|];
      [destruct (streq _ _);
       [rewrite openSession_eq;
        destruct (fst (setItem _ _ _)) as [[]|err]|]|];
      unfold InvalidCredentials;
      cbn [fst snd surfaced LoginScreen.errors LoginScreen.setErrors
             Form.general];
      try (rewrite G, E1, K); cbn [Form.present]; auto 6.
  - unfold LoginScreen.validateForm in VF. inversion VF as [[L S]].
    cbn [fst snd LoginScreen.errors LoginScreen.setErrors].
    repeat split.
    intros K. rewrite K in L. discriminate L.
Qed.

(** X21.  The signup form stands in front of the provider.  When a field
    check fails, [handleSignup] does not call signup and does not navigate:
    memory and store are untouched.  When the form passes, signup is called
    with the three fields; the screen navigates to Login exactly when signup
    returns, and otherwise shows, as a general error, "Email already
    registered" or "Failed to save user data". *)
Theorem handleSignup_guarded (sc : SignupScreen.State) (w : World store) :
  let n := SignupScreen.name sc in
  let e := SignupScreen.email sc in
  let p := SignupScreen.password sc in
  let sc' := fst (fst (SignupScreen.handleSignup sc w)) in
  let w' := snd (fst (SignupScreen.handleSignup sc w)) in
  let navigated := snd (SignupScreen.handleSignup sc w) in
  if fst (SignupScreen.validateForm sc)
  then
    w' = snd (signup n e p w) /\
    match Form.general (SignupScreen.errors sc') with
    | None => fst (signup n e p w) = Return tt /\ navigated = [Nav.Login]
    | Some m =>
        fst (signup n e p w) = Throw (Error m) /\ navigated = [] /\
        (m = "Email already registered" \/ m = "Failed to save user data")
    end
  else
    w' = w /\ navigated = [] /\
    SignupScreen.errors sc' = SignupScreen.newErrors sc /\
    Form.general (SignupScreen.errors sc') = None /\
    Form.keys (SignupScreen.errors sc') <> [].
Proof.
  cbv zeta. unfold SignupScreen.handleSignup.
  destruct (SignupScreen.validateForm sc) as [valid sc1] eqn:VF.
  cbn [fst]. destruct valid; cbn [negb].
  - assert (V := proj1 (signup_form_valid_iff sc)).
    rewrite VF in V. specialize (V eq_refl).
    assert (G : Form.general (SignupScreen.errors sc1) = None).
    { unfold SignupScreen.validateForm in VF. inversion VF. reflexivity. }
    rewrite signup_eq.
    destruct (registered (SignupScreen.email sc) (users (auth w))) eqn:R.
    + rewrite (signupChecks_duplicate _ _ _ _ V R).
      unfold EmailAlreadyRegistered.
      cbn [fst snd SignupScreen.errors SignupScreen.setErrors Form.general].
      auto.
    + rewrite (proj2 (signupChecks_pass _ _ _ _) (conj V R)), register_eq.
      destruct (fst (setItem _ _ _)) as [[]|err];
        cbn [fst snd surfaced SignupScreen.errors SignupScreen.setErrors
               Form.general];
        try rewrite G; auto 6.
  - unfold SignupScreen.validateForm in VF. inversion VF as [[L S]].
    cbn [fst snd SignupScreen.errors SignupScreen.setErrors].
    repeat split.
    intros K. rewrite K in L. discriminate L.
Qed.

(** X22.  The forms show what the provider would say: when a field check of
    signup (of login) fails on the fields of the form, the message the
    provider would throw is among the messages the form shows. *)
Theorem forms_show_provider_messages :
  (forall (sc : SignupScreen.State) (registry : list User) (m : string),
      fst (SignupScreen.validateForm sc) = false ->
      firstFailure
        (signupChecks (SignupScreen.name sc) (SignupScreen.email sc)
           (SignupScreen.password sc) registry) = Some (Error m) ->
      In m (Form.messages (SignupScreen.newErrors sc))) /\
  (forall (sc : LoginScreen.State) (m : string),
      firstFailure
        (loginChecks (LoginScreen.email sc) (LoginScreen.password sc))
      = Some (Error m) ->
      In m (Form.messages (LoginScreen.newErrors sc))).
Proof.
  split.
  - intros sc registry m.
    unfold SignupScreen.validateForm, SignupScreen.newErrors, Form.keys,
      Form.messages, signupChecks, firstFailure.
    cbn [fst Form.name Form.email Form.password Form.general].
    destruct (validateRequired (SignupScreen.name sc)),
      (validateRequired (SignupScreen.email sc)),
      (validateRequired (SignupScreen.password sc)),
      (validateEmail (SignupScreen.email sc)),
      (validatePassword (SignupScreen.password sc));
      simpl; intros L F; try discriminate L;
      inversion F; subst; auto.
  - intros sc m.
    unfold LoginScreen.newErrors, Form.messages, loginChecks, firstFailure.
    cbn [Form.name Form.email Form.password Form.general].
    destruct (validateRequired (LoginScreen.email sc)),
      (validateRequired (LoginScreen.password sc)),
      (validateEmail (LoginScreen.email sc));
      simpl; intros F; try discriminate F; inversion F; subst; auto.
Qed.

(** X23.  After start-up the navigator never shows the loading indicator:
    it shows Home when the stored session could be read and the Login and
    Signup screens otherwise, whatever the store holds or does. *)
Theorem navigator_after_startup (s : store) :
  AppNavigator.AppNavigator
    (auth (snd (loadStoredAuth (mkWorld initialState s)))) =
  match sessionRead s with
  | Some _ => AppNavigator.Stack [Nav.Home]
  | None => AppNavigator.Stack [Nav.Login; Nav.Signup]
  end.
Proof.
  rewrite loadStoredAuth_eq. unfold AppNavigator.AppNavigator.
  cbn [snd auth disk user users isLoading initialState].
  now destruct (sessionRead s).
Qed.

(** X24.  The logout button always works: [handleLogout] never rejects,
    clears currentUser even when the storage rejects the removal, and a
    navigator that is past loading then shows the Login and Signup
    screens. *)
Theorem handleLogout_leaves_home (w : World store) :
  fst (HomeScreen.handleLogout w) = Return tt /\
  user (auth (snd (HomeScreen.handleLogout w))) = None /\
  users (auth (snd (HomeScreen.handleLogout w))) = users (auth w) /\
  (isLoading (auth w) = false ->
   AppNavigator.AppNavigator (auth (snd (HomeScreen.handleLogout w))) =
   AppNavigator.Stack [Nav.Login; Nav.Signup]).
Proof.
  unfold HomeScreen.handleLogout, try_catch, ret. rewrite logout_eq.
  unfold AppNavigator.AppNavigator.
  destruct (fst (removeItem USER_KEY (disk w))) as [[]|err];
    cbn [fst snd surfaced auth user users isLoading];
    repeat split; intros ->; reflexivity.
Qed.
End ScreenFacts.

(* ================================================================== *)
(** * The further properties at concrete inputs *)

Import Reliable.

Lemma lookup_without_same (k : jsstring) (l : list (jsstring * doc)) :
  lookup k (without k l) = None.
Proof.
  induction l as [|[k' v] l IH]; simpl; [reflexivity|].
  destruct (streq k' k) eqn:E; simpl; [exact IH|]. now rewrite E.
Qed.

Lemma lookup_without_other (k k' : jsstring) (l : list (jsstring * doc)) :
  k <> k' -> lookup k' (without k l) = lookup k' l.
Proof.
  intros D. induction l as [|[k0 v] l IH]; simpl; [reflexivity|].
  destruct (streq k0 k) eqn:E; simpl.
  - apply streq_eq in E. subst k0.
    apply streq_neq in D. now rewrite D.
  - now rewrite IH.
Qed.

Lemma doc_lawful : @LawfulJSON doc docJSON.
Proof. split; reflexivity. Qed.

Lemma shelf_lawful : @LawfulStorage doc Shelf shelfStorage.
Proof.
  split; simpl.
  - reflexivity.
  - intros k v s s' E. inversion E; subst. simpl. now rewrite streq_refl.
  - intros k k' v s s' D E. inversion E; subst. simpl.
    apply streq_neq in D as D'. rewrite D'.
    now rewrite lookup_without_other.
  - intros k s s' E. inversion E; subst. simpl.
    now rewrite lookup_without_same.
  - intros k k' s s' D E. inversion E; subst. simpl.
    now rewrite lookup_without_other.
Qed.

Lemma storage_writes_pass_on_witness :
  fst (saveUser ann readOnlyDisk) = Throw (Error "write rejected") /\
  fst (saveUsers [ann] readOnlyDisk) = Throw (Error "write rejected") /\
  fst (removeUser readOnlyDisk) = Throw (Error "write rejected").
Proof.
  destruct (storage_writes_pass_on ann [ann] readOnlyDisk)
    as (_ & _ & _ & A & B & C).
  split; [|split].
  - apply A. reflexivity.
  - apply B. reflexivity.
  - apply C. reflexivity.
Defined.

Lemma session_round_trip_witness :
  fst (getUser (snd (saveUser ann emptyShelf))) = Return (Some ann) /\
  fst (getUser (snd (removeUser (snd (saveUser ann emptyShelf)))))
  = Return None.
Proof.
  split.
  - apply (proj1 (@session_round_trip _ _ _ _ doc_lawful shelf_lawful
                    ann emptyShelf (snd (saveUser ann emptyShelf)))).
    reflexivity.
  - apply (proj2 (@session_round_trip _ _ _ _ doc_lawful shelf_lawful
                    ann (snd (saveUser ann emptyShelf))
                    (snd (removeUser (snd (saveUser ann emptyShelf)))))).
    reflexivity.
Defined.

Lemma registry_round_trip_witness :
  fst (getUsers (snd (saveUsers [ann; bob] emptyShelf)))
  = Return [ann; bob].
Proof.
  apply (@registry_round_trip _ _ _ _ doc_lawful shelf_lawful
           [ann; bob] emptyShelf).
  reflexivity.
Defined.

Lemma session_registry_independent_witness :
  fst (getUsers (snd (saveUser ann (snd (saveUsers [ann; bob] emptyShelf)))))
  = Return [ann; bob].
Proof.
  transitivity (fst (getUsers (snd (saveUsers [ann; bob] emptyShelf)))).
  - apply (proj1 (@session_registry_independent _ _ _ _ shelf_lawful
                    ann [] (snd (saveUsers [ann; bob] emptyShelf))
                    (snd (saveUser ann
                            (snd (saveUsers [ann; bob] emptyShelf)))))).
    reflexivity.
  - reflexivity.
Defined.




Lemma run_keeps_registry_valid_witness :
  Forall validUser
    (users (auth (run [ Signup (str "Bob") (str "bob@x.com") (str "hunter22");
                        Signup (str " ") (str "x") (str "y");
                        Logout ]
                    (Reliable.ready [ann])))).
Proof.
  apply run_keeps_registry_valid. repeat constructor.
Defined.

Lemma startup_synced_witness :
  synced (snd (loadStoredAuth
                 (mkWorld initialState
                    (snd (saveUser ann (snd (saveUsers [ann] emptyShelf))))))).
Proof.
  exact (@startup_synced _ _ _ _ shelf_lawful
           (snd (saveUser ann (snd (saveUsers [ann] emptyShelf))))).
Defined.

Lemma exec_keeps_synced_witness :
  synced (snd (exec (Login (str "ann@x.com") (str "secret1"))
                 (snd (exec (Signup (str "Ann") (str "ann@x.com")
                               (str "secret1"))
                         (Reliable.ready []))))).
Proof.
  apply (@exec_keeps_synced _ _ _ _ doc_lawful shelf_lawful).
  - apply (@exec_keeps_synced _ _ _ _ doc_lawful shelf_lawful).
    + split; reflexivity.
    + intros err E. vm_compute in E. discriminate E.
  - intros err E. vm_compute in E. discriminate E.
Defined.

Lemma restart_restores_witness :
  auth (restart (run [ Signup (str "Ann") (str "ann@x.com") (str "secret1");
                       Login (str "ann@x.com") (str "secret1") ]
                   (Reliable.ready [])))
  = {| user := Some ann; users := [ann]; isLoading := false |}.
Proof.
  etransitivity.
  - apply (@restart_restores _ _ _ _ shelf_lawful
             (run [ Signup (str "Ann") (str "ann@x.com") (str "secret1");
                    Login (str "ann@x.com") (str "secret1") ]
                (Reliable.ready []))).
    split; reflexivity.
  - reflexivity.
Defined.

Lemma forms_show_provider_messages_witness :
  In "Invalid email format"%string
    (Form.messages
       (SignupScreen.newErrors
          (SignupScreen.mkState (str "Ann") (str "ann") (str "abc") false
             Form.empty))).
Proof.
  apply (proj1 forms_show_provider_messages
           (SignupScreen.mkState (str "Ann") (str "ann") (str "abc") false
              Form.empty) [] "Invalid email format"%string);
    reflexivity.
Defined.

Lemma handleLogout_leaves_home_witness :
  AppNavigator.AppNavigator
    (auth (snd (HomeScreen.handleLogout
                  (mkWorld {| user := Some ann; users := [ann];
                              isLoading := false |} readOnlyDisk))))
  = AppNavigator.Stack [Nav.Login; Nav.Signup].
Proof.
  apply (handleLogout_leaves_home
           (mkWorld {| user := Some ann; users := [ann];
                       isLoading := false |} readOnlyDisk)).
  reflexivity.
Defined.

(* ================================================================== *)
(** * Calls through the context value of a render *)

Section ClosureFacts.
Context {text store : Type} `{JSON text} `{AsyncStorage text store}.
Local Open Scope string_scope.
Local Open Scope list_scope.

Lemma closure_signup_eq (r : AuthState) (n e p : jsstring) (w : World store) :
  Closure.signup r n e p w =
  match firstFailure (signupChecks n e p (users r)) with
  | Some err => (Throw err, w)
  | None =>
      let us := users r ++ [mkUser n e p] in
      let write := setItem USERS_KEY (stringify_users us) (disk w) in
      (surfaced (fst write) "Failed to save user data",
       mkWorld {| user := user (auth w); users := us;
                  isLoading := isLoading (auth w) |} (snd write))
  end.
Proof.
  unfold Closure.signup, signupChecks, firstFailure.
  destruct (validateRequired n); [|reflexivity].
  destruct (validateRequired e); [|reflexivity].
  destruct (validateRequired p); [|reflexivity].
  destruct (validateEmail e); [|reflexivity].
  destruct (validatePassword p); [|reflexivity].
  cbn [negb]. rewrite registered_find.
  destruct (find _ _); [reflexivity|]. cbv zeta. unfold_js.
  destruct (setItem _ _ _) as [[[]|err] s']; reflexivity.
Qed.

Lemma closure_login_eq (r : AuthState) (e p : jsstring) (w : World store) :
  Closure.login r e p w =
  match firstFailure (loginChecks e p) with
  | Some err => (Throw err, w)
  | None =>
      match find (sameEmail e) (users r) with
      | Some foundUser =>
          if streq (password foundUser) p then openSession foundUser w
          else (Throw InvalidCredentials, w)
      | None => (Throw InvalidCredentials, w)
      end
  end.
Proof.
  unfold Closure.login, loginChecks, firstFailure.
  destruct (validateRequired e); [|reflexivity].
  destruct (validateRequired p); [|reflexivity].
  destruct (validateEmail e); [|reflexivity].
  cbn [negb]. destruct (find _ _) as [u|]; [|reflexivity].
  unfold passwordDiffers. destruct (streq _ _); reflexivity.
Qed.

(** The functions of the current render are the [signup] and [login] of the
    provider's state. *)
Lemma closure_signup_current (n e p : jsstring) (w : World store) :
  Closure.signup (auth w) n e p w = signup n e p w.
Proof.
  rewrite closure_signup_eq, signup_eq.
  destruct (firstFailure _); [reflexivity|]. now rewrite register_eq.
Qed.

Lemma closure_login_current (e p : jsstring) (w : World store) :
  Closure.login (auth w) e p w = login e p w.
Proof. now rewrite closure_login_eq, login_eq. Qed.

Lemma closure_exec_current (o : Op) (w : World store) :
  Closure.exec (auth w) o w = exec o w.
Proof.
  destruct o as [n e p|e p|]; simpl.
  - apply closure_signup_current.
  - apply closure_login_current.
  - reflexivity.
Qed.

Lemma runVia_latest (ops : list Op) (past : list AuthState)
  (w : World store) :
  Closure.runVia (Closure.latest ops) past w = run ops w.
Proof.
  revert past w. induction ops as [|o ops IH]; intros past w; simpl;
    [reflexivity|].
  now rewrite closure_exec_current, IH.
Qed.

(** What a call through any context value does to the registry. *)
Lemma closure_exec_users (r : AuthState) (o : Op) (w : World store) :
  users (auth (snd (Closure.exec r o w))) = users (auth w) \/
  exists u, validUser u /\ registered (email u) (users r) = false /\
            users (auth (snd (Closure.exec r o w))) = users r ++ [u].
Proof.
  destruct o as [n e p|e p|]; simpl.
  - rewrite closure_signup_eq. destruct (firstFailure _) eqn:F; [now left|].
    right. apply signupChecks_pass in F as [V R].
    exists (mkUser n e p). auto.
  - left. rewrite closure_login_eq. destruct (firstFailure _); [reflexivity|].
    destruct (find _ _) as [u|]; [|reflexivity].
    destruct (streq _ _); [|reflexivity].
    now rewrite openSession_eq.
  - left. unfold Closure.logout. apply logout_users.
Qed.

Lemma closure_exec_keeps_NoDup (r : AuthState) (o : Op) (w : World store) :
  NoDup (emails (users r)) ->
  NoDup (emails (users (auth w))) ->
  NoDup (emails (users (auth (snd (Closure.exec r o w))))).
Proof.
  intros Hr Hw.
  destruct (closure_exec_users r o w) as [U|(u & _ & R & U)]; rewrite U.
  - exact Hw.
  - rewrite emails_app. apply NoDup_snoc; [exact Hr|].
    now apply unregistered_notIn.
Qed.

Lemma runVia_keeps_NoDup (calls : list (nat * Op)) (past : list AuthState)
  (w : World store) :
  NoDup (emails (users (auth w))) ->
  Forall (fun r => NoDup (emails (users r))) past ->
  NoDup (emails (users (auth (Closure.runVia calls past w)))).
Proof.
  revert past w.
  induction calls as [|[age o] calls IH]; intros past w Hw Hp;
    cbn [Closure.runVia]; [exact Hw|].
  assert (Hall : Forall (fun r => NoDup (emails (users r))) (auth w :: past))
    by (constructor; assumption).
  apply IH; [|exact Hall].
  apply closure_exec_keeps_NoDup; [|exact Hw].
  destruct (nth_in_or_default age (auth w :: past) (auth w)) as [Hin|E].
  - rewrite Forall_forall in Hall. now apply Hall.
  - now rewrite E.
Qed.

Lemma closure_signupAll_users (reqs : list User) (w w' : World store) :
  Closure.signupAll reqs w = (Return tt, w') ->
  users (auth w') = users (auth w) ++ reqs /\
  (NoDup (emails (users (auth w))) -> NoDup (emails (users (auth w')))).
Proof.
  revert w. induction reqs as [|r reqs IH]; intros w E; simpl in E.
  - inversion E; subst. rewrite app_nil_r. auto.
  - unfold bind at 1, reads in E. unfold bind at 1 in E.
    pose proof (closure_exec_users (auth w)
                  (Signup (name r) (email r) (password r)) w) as U.
    pose proof (closure_exec_keeps_NoDup (auth w)
                  (Signup (name r) (email r) (password r)) w) as K.
    simpl in U, K.
    rewrite closure_signup_eq in E, U, K.
    destruct (firstFailure _) eqn:F; [discriminate|].
    cbv zeta in E, U, K. cbn [fst snd auth users] in U, K.
    destruct (fst (setItem _ _ _)) as [[]|err]; [|discriminate].
    cbn [surfaced] in E. apply IH in E as [E1 E2].
    cbn [auth users] in E1, E2. destruct r; cbn [name email password] in *.
    split.
    + rewrite E1, <- app_assoc. reflexivity.
    + intros Hnd. apply E2. now apply K.
Qed.

(** C1, as amended.  For inputs that pass the validators and a registry
    that does not hold the email, signup through the current context value
    followed by login through the context value of the render that follows
    leaves currentUser equal to the record [{name, email, password}],
    whatever the storage does.  Each of the two calls returns when the
    storage accepts its write and fails with its persistence failure when
    the storage rejects it. *)
Theorem signup_then_login (n e p : jsstring) (w : World store) :
  validInputs n e p ->
  registered e (users (auth w)) = false ->
  let u := mkUser n e p in
  let w1 := snd (Closure.signup (auth w) n e p w) in
  let w2 := snd (Closure.login (auth w1) e p w1) in
  user (auth w2) = Some u /\
  (accepts USERS_KEY (stringify_users (users (auth w) ++ [u])) (disk w) ->
   fst (Closure.signup (auth w) n e p w) = Return tt) /\
  (rejects USERS_KEY (stringify_users (users (auth w) ++ [u])) (disk w) ->
   fst (Closure.signup (auth w) n e p w)
   = Throw (Error "Failed to save user data")) /\
  (accepts USER_KEY (stringify_user u) (disk w1) ->
   fst (Closure.login (auth w1) e p w1) = Return tt) /\
  (rejects USER_KEY (stringify_user u) (disk w1) ->
   fst (Closure.login (auth w1) e p w1)
   = Throw (Error "Failed to save session")) /\
  PersistenceFailure (Error "Failed to save user data") /\
  PersistenceFailure (Error "Failed to save session").
Proof.
  intros V R u w1 w2.
  assert (S1 : Closure.signup (auth w) n e p w =
               (surfaced
                  (fst (setItem USERS_KEY
                          (stringify_users (users (auth w) ++ [u])) (disk w)))
                  "Failed to save user data",
                mkWorld {| user := user (auth w);
                           users := users (auth w) ++ [u];
                           isLoading := isLoading (auth w) |}
                  (snd (setItem USERS_KEY
                          (stringify_users (users (auth w) ++ [u]))
                          (disk w))))).
  { rewrite closure_signup_eq.
    now rewrite (proj2 (signupChecks_pass n e p (users (auth w)))). }
  assert (U1 : users (auth w1) = users (auth w) ++ [u])
    by (unfold w1; now rewrite S1).
  assert (L1 : Closure.login (auth w1) e p w1 = openSession u w1).
  { rewrite closure_login_eq. destruct V as (_ & Ve & Vp & Vm & _).
    rewrite (proj2 (loginChecks_pass e p)) by auto.
    rewrite U1. change e with (email u) at 1.
    rewrite find_appended by exact R.
    change (password u) with p. now rewrite streq_refl. }
  unfold w2. rewrite L1, S1, openSession_eq.
  cbn [fst snd auth user]. unfold accepts, rejects.
  split; [reflexivity|]. split; [now intros ->|].
  split; [now intros [err ->]|]. split; [now intros ->|].
  split; [now intros [err ->]|].
  split; [exact persistence_registry|exact persistence_session].
Qed.

(** C2, as amended.  Along any sequence of signup, login and logout calls,
    each made through the context value of the latest or of any earlier
    render, that starts from a registry with pairwise distinct emails, the
    emails of the registry stay pairwise distinct.  N signups that all
    succeed from the empty registry, each made through the context value of
    the latest render, leave exactly their N users, with N distinct emails;
    and a signup through a context value whose registry holds the email
    throws and leaves the state as it is. *)
Theorem registry_emails_unique :
  (forall (calls : list (nat * Op)) (w : World store),
      NoDup (emails (users (auth w))) ->
      NoDup (emails (users (auth (Closure.runVia calls [] w))))) /\
  (forall (reqs : list User) (w w' : World store),
      users (auth w) = [] ->
      Closure.signupAll reqs w = (Return tt, w') ->
      List.length (users (auth w')) = List.length reqs /\
      users (auth w') = reqs /\
      NoDup (emails reqs)) /\
  (forall (r : AuthState) (n e p : jsstring) (w : World store),
      In e (emails (users r)) ->
      snd (Closure.signup r n e p w) = w /\
      exists err, fst (Closure.signup r n e p w) = Throw err).
Proof.
  split; [|split].
  - intros calls w Hnd. apply runVia_keeps_NoDup; [exact Hnd|constructor].
  - intros reqs w w' E S.
    apply closure_signupAll_users in S as [S1 S2]. rewrite E in S1, S2.
    simpl in S1. rewrite S1 in *.
    repeat split. apply S2. constructor.
  - intros r n e p w Hin. rewrite closure_signup_eq.
    apply registered_In in Hin.
    destruct (signupChecks_registered n e p _ Hin) as [err ->].
    split; [reflexivity|now exists err].
Qed.


(** X15.  Along calls made through the context value of the latest render,
    currentUser is a registered user: if currentUser is absent or an entry
    of the registry, it is so after any sequence of signup, login and logout
    calls each made through the context value of the latest render. *)
Theorem session_registered_through_latest (ops : list Op)
  (past : list AuthState) (w : World store) :
  sessionRegistered (auth w) ->
  sessionRegistered (auth (Closure.runVia (Closure.latest ops) past w)).
Proof.
  rewrite runVia_latest. clear past.
  revert w. induction ops as [|o ops IH]; intros w S; simpl; [exact S|].
  apply IH. unfold sessionRegistered in *.
  assert (Sub : forall u, In u (users (auth w)) ->
                          In u (users (auth (snd (exec o w))))).
  { intros u Hin. destruct (exec_users o w) as [U|(v & _ & _ & U)];
      rewrite U; [exact Hin|]. apply in_or_app. now left. }
  destruct (exec_user o w) as [U|[U|(u & Hin & U)]]; rewrite U.
  - destruct (user (auth w)); [now apply Sub|exact I].
  - exact I.
  - now apply Sub.
Qed.
End ClosureFacts.

(** With valid inputs and an empty registry, signup fails on a store that
    rejects writes; and on a store that accepts them, signup followed by
    login through the context value signup was called through fails with
    InvalidCredentials and leaves currentUser absent. *)
Lemma round_trip_can_fail :
  validInputs (str "Ann") (str "ann@x.com") (str "secret1") /\
  registered (str "ann@x.com") [] = false /\
  fst (Closure.signup (auth (Demo.ready [] readOnlyDisk))
         (str "Ann") (str "ann@x.com") (str "secret1")
         (Demo.ready [] readOnlyDisk))
  = Throw (Error "Failed to save user data") /\
  (let w := Demo.ready [] emptyDisk in
   let w1 := snd (Closure.signup (auth w)
                    (str "Ann") (str "ann@x.com") (str "secret1") w) in
   fst (Closure.signup (auth w)
          (str "Ann") (str "ann@x.com") (str "secret1") w) = Return tt /\
   users (auth w1) = [ann] /\
   fst (Closure.login (auth w) (str "ann@x.com") (str "secret1") w1)
   = Throw InvalidCredentials /\
   user (auth (snd (Closure.login (auth w)
                      (str "ann@x.com") (str "secret1") w1))) = None).
Proof.
  cbv zeta. split; [repeat split|]; repeat split; reflexivity.
Qed.

Lemma signup_then_login_witness :
  validInputs (str "Ann") (str "ann@x.com") (str "secret1") /\
  registered (str "ann@x.com") (users (auth (Demo.ready [bob] emptyDisk)))
  = false /\
  (let w := Demo.ready [bob] emptyDisk in
   let w1 := snd (Closure.signup (auth w)
                    (str "Ann") (str "ann@x.com") (str "secret1") w) in
   user (auth (snd (Closure.login (auth w1)
                      (str "ann@x.com") (str "secret1") w1))) = Some ann /\
   fst (Closure.signup (auth w)
          (str "Ann") (str "ann@x.com") (str "secret1") w) = Return tt /\
   fst (Closure.login (auth w1) (str "ann@x.com") (str "secret1") w1)
   = Return tt) /\
  (let w := Demo.ready [bob] readOnlyDisk in
   let w1 := snd (Closure.signup (auth w)
                    (str "Ann") (str "ann@x.com") (str "secret1") w) in
   user (auth (snd (Closure.login (auth w1)
                      (str "ann@x.com") (str "secret1") w1))) = Some ann /\
   fst (Closure.signup (auth w)
          (str "Ann") (str "ann@x.com") (str "secret1") w)
   = Throw (Error "Failed to save user data") /\
   fst (Closure.login (auth w1) (str "ann@x.com") (str "secret1") w1)
   = Throw (Error "Failed to save session")).
Proof.
  assert (V : validInputs (str "Ann") (str "ann@x.com") (str "secret1"))
    by (repeat split; reflexivity).
  assert (R : registered (str "ann@x.com")
                (users (auth (Demo.ready [bob] emptyDisk))) = false)
    by reflexivity.
  split; [exact V|split; [exact R|]]. cbv zeta. split.
  - destruct (signup_then_login (str "Ann") (str "ann@x.com")
                (str "secret1") (Demo.ready [bob] emptyDisk) V R)
      as (U & A1 & _ & A2 & _).
    split; [exact U|split].
    + apply A1. reflexivity.
    + apply A2. reflexivity.
  - destruct (signup_then_login (str "Ann") (str "ann@x.com")
                (str "secret1") (Demo.ready [bob] readOnlyDisk) V R)
      as (U & _ & R1 & _ & R2 & _).
    split; [exact U|split].
    + apply R1. exists (Error "write rejected"). reflexivity.
    + apply R2. exists (Error "write rejected"). reflexivity.
Defined.

(** Two signups with distinct emails, both made through the context value
    of the first render, both succeed and leave one entry: the second sets
    the registry to that render's registry followed by its own user. *)
Lemma stale_signups_drop_entries :
  let w := Demo.ready [] emptyDisk in
  let w1 := snd (Closure.signup (auth w)
                   (str "Ann") (str "ann@x.com") (str "secret1") w) in
  let w2 := snd (Closure.signup (auth w)
                   (str "Bob") (str "bob@x.com") (str "hunter22") w1) in
  str "ann@x.com" <> str "bob@x.com" /\
  fst (Closure.signup (auth w)
         (str "Ann") (str "ann@x.com") (str "secret1") w) = Return tt /\
  fst (Closure.signup (auth w)
         (str "Bob") (str "bob@x.com") (str "hunter22") w1) = Return tt /\
  users (auth w1) = [ann] /\
  users (auth w2) = [bob] /\
  List.length (users (auth w2)) <> 2 /\
  w2 = Closure.runVia
         [ (0, Signup (str "Ann") (str "ann@x.com") (str "secret1"));
           (1, Signup (str "Bob") (str "bob@x.com") (str "hunter22")) ]
         [] w.
Proof.
  cbv zeta. split; [discriminate|].
  split; [reflexivity|]. split; [reflexivity|]. split; [reflexivity|].
  split; [reflexivity|]. split; [vm_compute; discriminate|reflexivity].
Qed.

Lemma registry_emails_unique_witness :
  NoDup (emails (users (auth
    (Closure.runVia
       [ (0, Signup (str "Ann") (str "ann@x.com") (str "secret1"));
         (1, Signup (str "Bob") (str "bob@x.com") (str "hunter22"));
         (0, Login (str "bob@x.com") (str "hunter22"));
         (2, Signup (str "Imp") (str "bob@x.com") (str "secret2"));
         (0, Logout) ]
       [] (Demo.ready [] emptyDisk))))) /\
  List.length
    (users (auth (snd (Closure.signupAll [ann; bob] (Demo.ready [] emptyDisk)))))
  = 2%nat /\
  snd (Closure.signup (auth (Demo.ready [ann; bob] emptyDisk))
         (str "Imp") (str "ann@x.com") (str "secret2")
         (Demo.ready [ann; bob] emptyDisk))
  = Demo.ready [ann; bob] emptyDisk.
Proof.
  destruct (@registry_emails_unique doc Disk _ _) as (A & B & C).
  split; [|split].
  - apply A. constructor.
  - apply (B [ann; bob] (Demo.ready [] emptyDisk)); reflexivity.
  - apply (C (auth (Demo.ready [ann; bob] emptyDisk))
             (str "Imp") (str "ann@x.com") (str "secret2")
             (Demo.ready [ann; bob] emptyDisk)).
    left. reflexivity.
Defined.


Lemma session_registered_through_latest_witness :
  sessionRegistered
    (auth (Closure.runVia
             (Closure.latest
                [ Signup (str "Ann") (str "ann@x.com") (str "secret1");
                  Login (str "ann@x.com") (str "secret1");
                  Signup (str "Bob") (str "bob@x.com") (str "hunter22") ])
             [] (Demo.ready [] emptyDisk))).
Proof.
  apply session_registered_through_latest. exact I.
Defined.
